(** * Grid proxy server: the node-liveness cache of [internal/explorer]

    A shallow embedding of the cache-aware fetch pipeline of the grid proxy
    ([helpers.go], [server.go], the Redis helpers and the types file) and the
    properties of its liveness cache.

    Modelling conventions.
    - The Redis store, the process-local go-cache ([lruCache]) and the wall
      clock form the state that the handlers thread; a Go function that
      touches them is a computation in the monad [M].  A Go panic (a failed
      type assertion on a go-cache value) aborts the computation: [None].
    - The GraphQL explorer (the Directory), the RMB node client (the Node
      Probe) and the health of the Redis connection are the environment,
      gathered in the record [World] and passed to every operation.
    - Go's [(T, error)] results are sums ([result]) where the caller checks
      the error first, and pairs with an optional error where the source
      uses the value next to the error ([GetRedisKey], [getNodeData]).
    - Times are whole seconds ([N]); one operation runs at one instant and
      time passes between operations ([sleep]).
    - Calls of the zerolog logger have no effect on the state and are left
      out. *)

From Stdlib Require Import ZArith NArith Lia Ascii.
From stdpp Require Import gmap strings list fin_maps pretty.

Open Scope string_scope.

(** ** Errors ([github.com/pkg/errors], [fmt.Errorf] with [%w]) *)

(** Modelled from the spec: [ErrLikelyDown] is returned by [checkLikelyDown]
    and its declaration is not among the sources; the spec lists LikelyDown
    as an error of its own beside NotFound and BadGateway, so it is a
    sentinel like [ErrNodeNotFound] and [ErrBadGateway], which the types
    file declares with [errors.New]. *)
Inductive error : Type :=
| ErrNodeNotFound                      (* errors.New("node not found") *)
| ErrBadGateway                        (* errors.New("bad gateway") *)
| ErrBadRequest                        (* errors.New("bad request") *)
| ErrLikelyDown                        (* sentinel returned by checkLikelyDown *)
| ErrNil                               (* redigo: nil returned *)
| External (msg : string)              (* an error made outside this package *)
| Wrapped (msg : string) (cause : error).

#[global] Instance error_eq_dec : EqDecision error.
Proof. solve_decision. Defined.

(** [err.Error()]: the message of a wrapped error is its prefix followed by
    the message of its cause. *)
Fixpoint Error (err : error) : string :=
  match err with
  | ErrNodeNotFound => "node not found"
  | ErrBadGateway => "bad gateway"
  | ErrBadRequest => "bad request"
  | ErrLikelyDown => "likely down"
  | ErrNil => "redigo: nil returned"
  | External msg => msg
  | Wrapped msg cause => msg +:+ Error cause
  end.

(** [errors.Wrapf(err, msg)] and [errors.Wrap(err, msg)]. *)
Definition Wrapf (err : error) (msg : string) : error := Wrapped (msg +:+ ": ") err.

(** [fmt.Errorf(msg + " %w", err)]. *)
Definition Errorf_w (msg : string) (err : error) : error := Wrapped (msg +:+ " ") err.

(** [errors.Is(err, target)]: walks the chain of causes and compares each
    link with the target.  A wrapper is a fresh value, so only an unwrapped
    link can be equal to a sentinel. *)
Fixpoint errors_Is (err target : error) : bool :=
  match err with
  | Wrapped _ cause => errors_Is cause target
  | _ => bool_decide (err = target)
  end.

(** Go results [(T, error)] whose value is read only when the error is nil. *)
Inductive result (A : Type) : Type :=
| Ok (a : A)
| Err (e : error).
Arguments Ok {A} a.
Arguments Err {A} e.

(** Answer of an external service: a value, or a failure with its message. *)
Inductive reply (A : Type) : Type :=
| Reply (a : A)
| Failure (msg : string).
Arguments Reply {A} a.
Arguments Failure {A} msg.

(** ** Data model (types file) *)

(** [gridtypes.Capacity]. *)
Record gridtypes_Capacity : Type := mkCapacity {
  CRU : N; SRU : N; HRU : N; MRU : N; IPV4U : N
}.

Definition zeroCapacity : gridtypes_Capacity := mkCapacity 0 0 0 0 0.

Record capacityResult : Type := mkCapacityResult {
  Total : gridtypes_Capacity;
  Used : gridtypes_Capacity
}.

(** [NodeInfo], as [fetchNodeData] builds it; [dmi_DMI] is the hardware
    inventory type of the zos package [dmi]. *)
Record NodeInfo (dmi_DMI : Type) : Type := mkNodeInfo {
  Capacity : capacityResult;
  DMI : dmi_DMI;
  Hypervisor : string;
  ZosVersion : string
}.
Arguments mkNodeInfo {dmi_DMI} _ _ _ _.
Arguments Capacity {dmi_DMI} _.
Arguments DMI {dmi_DMI} _.
Arguments Hypervisor {dmi_DMI} _.
Arguments ZosVersion {dmi_DMI} _.

Record location : Type := mkLocation { loc_Country : string; loc_City : string }.

(** The fields of [node] that [listNodes] reads or writes. *)
Record node : Type := mkNode {
  NodeID : Z;
  FarmID : Z;
  TwinID : Z;
  Country : string;
  City : string;
  TotalResources : gridtypes_Capacity;
  UsedResources : gridtypes_Capacity;
  Location : location;
  Status : string
}.

(** [encoding/json] on [NodeInfo]: [json.Marshal] and [json.Unmarshal] into a
    zero [NodeInfo]. *)
Class JSON (dmi_DMI : Type) : Type := {
  json_Marshal : NodeInfo dmi_DMI -> reply string;
  json_Unmarshal : string -> reply (NodeInfo dmi_DMI);
  (* the encoding of a struct is a JSON object, never the empty text *)
  json_Marshal_nonempty : forall n bytes, json_Marshal n = Reply bytes -> bytes <> "";
  (* the empty input and the text [likely down] are not JSON *)
  json_Unmarshal_empty : forall n, json_Unmarshal "" <> Reply n;
  json_Unmarshal_likely_down : forall n, json_Unmarshal "likely down" <> Reply n
}.

(** ** State and environment *)

(** Values kept in the go-cache (its [interface{}] objects). *)
Inductive lruValue (dmi_DMI : Type) : Type :=
| VUint32 (n : N)
| VString (s : string)
| VDMI (d : dmi_DMI).
Arguments VUint32 {dmi_DMI} n.
Arguments VString {dmi_DMI} s.
Arguments VDMI {dmi_DMI} d.

(** go-cache [Item]: the object and its expiration instant, [0] for none. *)
Record Item (dmi_DMI : Type) : Type := mkItem {
  Object : lruValue dmi_DMI;
  Expiration : N
}.
Arguments mkItem {dmi_DMI} _ _.
Arguments Object {dmi_DMI} _.
Arguments Expiration {dmi_DMI} _.

(** Requests sent to the Directory and to the Node Probe, in order. *)
Inductive call : Type :=
| QueryTwin (nodeID : string)
| QueryNodeIds
| QueryNodes
| Counters (twin : N)
| SystemVersion (twin : N)
| SystemHypervisor (twin : N)
| SystemDMI (twin : N).

#[global] Instance call_eq_dec : EqDecision call.
Proof. solve_decision. Defined.

(** A probe call is a request to the node itself. *)
Definition is_probe (c : call) : bool :=
  match c with
  | Counters _ | SystemVersion _ | SystemHypervisor _ | SystemDMI _ => true
  | _ => false
  end.

(** A Directory call for a twin id (twin resolution). *)
Definition is_twin_query (c : call) : bool :=
  match c with
  | QueryTwin _ => true
  | _ => false
  end.

Record State (dmi_DMI : Type) : Type := mkState {
  redis : gmap string (string * N);       (* key -> value, instant of expiry *)
  lruCache : gmap string (Item dmi_DMI);  (* a.lruCache *)
  clock : N;                              (* seconds since Setup *)
  calls : list call                       (* newest first *)
}.
Arguments mkState {dmi_DMI} _ _ _ _.
Arguments redis {dmi_DMI} _.
Arguments lruCache {dmi_DMI} _.
Arguments clock {dmi_DMI} _.
Arguments calls {dmi_DMI} _.

Record World (dmi_DMI : Type) : Type := mkWorld {
  (* Directory *)
  explorer_twin : string -> reply (list N);
  explorer_nodeIds : reply (list Z);
  explorer_nodes : Z -> Z -> string -> string -> reply (list node);
  (* Node Probe, by twin id *)
  rmb_Counters : N -> reply (gridtypes_Capacity * gridtypes_Capacity);
  rmb_SystemVersion : N -> reply string;
  rmb_SystemHypervisor : N -> reply string;
  rmb_SystemDMI : N -> reply dmi_DMI;
  (* Redis connection pool *)
  redis_up : bool
}.
Arguments mkWorld {dmi_DMI} _ _ _ _ _ _ _ _.
Arguments explorer_twin {dmi_DMI} _ _.
Arguments explorer_nodeIds {dmi_DMI} _.
Arguments explorer_nodes {dmi_DMI} _ _ _ _ _.
Arguments rmb_Counters {dmi_DMI} _ _.
Arguments rmb_SystemVersion {dmi_DMI} _ _.
Arguments rmb_SystemHypervisor {dmi_DMI} _ _.
Arguments rmb_SystemDMI {dmi_DMI} _ _.
Arguments redis_up {dmi_DMI} _.

(** ** The monad of handlers *)

Definition M (S A : Type) : Type := S -> option (A * S).

Definition ret {S A : Type} (x : A) : M S A := fun s => Some (x, s).

Definition bind {S A B : Type} (m : M S A) (k : A -> M S B) : M S B :=
  fun s => match m s with
           | Some (x, s') => k x s'
           | None => None
           end.

Definition panic {S A : Type} : M S A := fun _ => None.

Definition gets {S A : Type} (f : S -> A) : M S A := fun s => Some (f s, s).

Definition modify {S : Type} (f : S -> S) : M S unit := fun s => Some (tt, f s).

Declare Scope go_scope.
Delimit Scope go_scope with go.
Notation "x <- m ;; k" := (bind m (fun x => k))
  (at level 100, m at next level, right associativity) : go_scope.
Notation "m ;; k" := (bind m (fun _ => k))
  (at level 100, right associativity) : go_scope.
Open Scope go_scope.

Section Model.

Context {dmi_DMI : Type} {J : JSON dmi_DMI}.

Local Abbreviation State := (State dmi_DMI).
Local Abbreviation World := (World dmi_DMI).
Local Abbreviation NodeInfo := (NodeInfo dmi_DMI).
Local Abbreviation Go := (M State).

Implicit Types (s : State) (w : World) (nodeID key : string).

Definition set_redis (f : gmap string (string * N) -> gmap string (string * N)) s : State :=
  mkState (f (redis s)) (lruCache s) (clock s) (calls s).

Definition set_lruCache
    (f : gmap string (Item dmi_DMI) -> gmap string (Item dmi_DMI)) s : State :=
  mkState (redis s) (f (lruCache s)) (clock s) (calls s).

Definition set_clock (t : N) s : State :=
  mkState (redis s) (lruCache s) t (calls s).

(** Record a request to an external service. *)
Definition record (c : call) : Go unit :=
  modify (fun s => mkState (redis s) (lruCache s) (clock s) (c :: calls s)).

(** The state right after [Setup]: nothing stored, nothing cached. *)
Definition initState : State := mkState ∅ ∅ 0 [].

(** ** Redis helpers ([SetRedisKey], [GetRedisKey], [DeleteRedisKey]) *)

Definition redis_conn_error : error := External "redis: connection failed".

(** What a Redis [GET] answers: the value of a key that is set and whose
    expiry lies in the future. *)
Definition redis_GET s key : option string :=
  match redis s !! key with
  | Some (v, expiry) => if bool_decide (clock s < expiry)%N then Some v else None
  | None => None
  end.

(** [conn.Do("SET", key, val, "EX", expiration)]. *)
Definition SetRedisKey w key (val : string) (expiration : N) : Go (option error) :=
  if redis_up w then
    modify (fun s => set_redis (fun m => <[key := (val, (clock s + expiration)%N)]> m) s) ;;
    ret None
  else ret (Some redis_conn_error).

(** [redis.String(conn.Do("GET", key))]: a missing key is the error
    [redis.ErrNil], and the string is empty next to every error. *)
Definition GetRedisKey w key : Go (string * option error) :=
  if redis_up w then
    v <- gets (fun s => redis_GET s key) ;;
    match v with
    | Some val => ret (val, None)
    | None => ret ("", Some ErrNil)
    end
  else ret ("", Some redis_conn_error).

(** Modelled from the spec: [DeleteRedisKey] is called by [getNodeData] and
    its body is not among the sources; the spec lists the store's [DELETE]
    beside [GET] and [SET], so it is taken as [conn.Do("DEL", key)] with the
    error handling of [SetRedisKey]. *)
Definition DeleteRedisKey w key : Go (option error) :=
  if redis_up w then
    modify (set_redis (fun m => delete key m)) ;;
    ret None
  else ret (Some redis_conn_error).

(** ** go-cache, as created by [cache.New(2*time.Minute, 3*time.Minute)] *)

Definition cache_DefaultExpiration : Z := 0.
Definition cache_NoExpiration : Z := -1.

(** First argument of [cache.New]: the default time to live, in seconds. *)
Definition lru_defaultExpiration : Z := 2 * 60.
(** Second argument of [cache.New]: the period of the janitor, in seconds. *)
Definition lru_cleanupInterval : N := 3 * 60.

(** [Item.Expired] at instant [now]. *)
Definition item_expired (now : N) (it : Item dmi_DMI) : bool :=
  bool_decide (0 < Expiration it)%N && bool_decide (Expiration it < now)%N.

(** [c.Set(k, x, d)]. *)
Definition cache_Set (k : string) (x : lruValue dmi_DMI) (d : Z) : Go unit :=
  modify (fun s =>
    let d := if bool_decide (d = cache_DefaultExpiration) then lru_defaultExpiration else d in
    let e := if bool_decide (0 < d)%Z then (clock s + Z.to_N d)%N else 0%N in
    set_lruCache (fun m => <[k := mkItem x e]> m) s).

(** [c.Get(k)]: the object of an item that is present and not expired. *)
Definition cache_lookup s (k : string) : option (lruValue dmi_DMI) :=
  match lruCache s !! k with
  | Some it => if item_expired (clock s) it then None else Some (Object it)
  | None => None
  end.

Definition cache_Get (k : string) : Go (option (lruValue dmi_DMI)) :=
  gets (fun s => cache_lookup s k).

(** [c.DeleteExpired()], run by the janitor. *)
Definition cache_DeleteExpired s : State :=
  set_lruCache (fun m => filter (fun kv => item_expired (clock s) kv.2 = false) m) s.

(** One second passes; the janitor's ticker fires every
    [lru_cleanupInterval] seconds after [Setup]. *)
Definition tick s : State :=
  let s' := set_clock (clock s + 1)%N s in
  if bool_decide ((clock s' mod lru_cleanupInterval)%N = 0%N)
  then cache_DeleteExpired s'
  else s'.

Fixpoint sleep (seconds : nat) s : State :=
  match seconds with
  | O => s
  | S n => sleep n (tick s)
  end.

(** ** helpers.go *)

Definition maxGoRoutnes : nat := 30.

Definition getNodeKey nodeID : string := "GRID3NODE:" +:+ nodeID.

(** [a.query] of the twin id of one node. *)
Definition query_twin w nodeID : Go (reply (list N)) :=
  record (QueryTwin nodeID) ;;
  ret (explorer_twin w nodeID).

Definition getNodeTwinID w nodeID : Go (result N) :=
  cached <- cache_Get nodeID ;;
  match cached with
  | Some (VUint32 twinID) => ret (Ok twinID)
  | Some _ => panic                              (* twinID.(uint32) *)
  | None =>
      res <- query_twin w nodeID ;;
      match res with
      | Failure msg => ret (Err (Errorf_w "failed to query node" (External msg)))
      | Reply [] => ret (Err ErrNodeNotFound)
      | Reply (twinID :: _) =>
          cache_Set nodeID (VUint32 twinID) cache_DefaultExpiration ;;
          ret (Ok twinID)
      end
  end.

Definition hypervisorKey nodeID : string := "node_" +:+ nodeID +:+ "_hypervisor".
Definition dmiKey nodeID : string := "node_" +:+ nodeID +:+ "_dmi".

Definition getNodeHypervisor w nodeID (twin : N) : Go (result string) :=
  cached <- cache_Get (hypervisorKey nodeID) ;;
  match cached with
  | Some (VString nodeHyperVisor) => ret (Ok nodeHyperVisor)
  | Some _ => panic                              (* nodeHyperVisor.(string) *)
  | None =>
      record (SystemHypervisor twin) ;;
      match rmb_SystemHypervisor w twin with
      | Failure msg => ret (Err (External msg))
      | Reply hypervisor =>
          cache_Set (hypervisorKey nodeID) (VString hypervisor) cache_NoExpiration ;;
          ret (Ok hypervisor)
      end
  end.

Definition getNodeDMI w nodeID (twin : N) : Go (result dmi_DMI) :=
  cached <- cache_Get (dmiKey nodeID) ;;
  match cached with
  | Some (VDMI nodeDMI) => ret (Ok nodeDMI)
  | Some _ => panic                              (* nodeDMI.(dmi.DMI) *)
  | None =>
      record (SystemDMI twin) ;;
      match rmb_SystemDMI w twin with
      | Failure msg => ret (Err (External msg))
      | Reply dmiData =>
          cache_Set (dmiKey nodeID) (VDMI dmiData) cache_NoExpiration ;;
          ret (Ok dmiData)
      end
  end.

(** [fetchNodeData]: twin id, counters, version, hypervisor, inventory. *)
Definition fetchNodeData w nodeID : Go (result NodeInfo) :=
  r <- getNodeTwinID w nodeID ;;
  match r with
  | Err err => ret (Err err)
  | Ok twinID =>
      record (Counters twinID) ;;
      match rmb_Counters w twinID with
      | Failure msg => ret (Err (Wrapf (External msg) "error fetching node statistics"))
      | Reply (total, used) =>
          let capacity := mkCapacityResult total used in
          record (SystemVersion twinID) ;;
          match rmb_SystemVersion w twinID with
          | Failure msg => ret (Err (Wrapf (External msg) "error fetching node version"))
          | Reply version =>
              h <- getNodeHypervisor w nodeID twinID ;;
              match h with
              | Err err => ret (Err (Wrapf err "error fetching hypervisor"))
              | Ok hypervisor =>
                  d <- getNodeDMI w nodeID twinID ;;
                  match d with
                  | Err err => ret (Err (Wrapf err "error fetching node dmi"))
                  | Ok dmiData => ret (Ok (mkNodeInfo capacity dmiData hypervisor version))
                  end
              end
          end
      end
  end.

(** [NodeInfo.Serialize] and [NodeInfo.Deserialize] of the types file. *)
Definition Serialize (n : NodeInfo) : result string :=
  match json_Marshal n with
  | Reply bytes => Ok bytes
  | Failure msg =>
      Err (Wrapf (External msg) "failed to serialize json data for node info struct")
  end.

Definition Deserialize (data : string) : result NodeInfo :=
  match json_Unmarshal data with
  | Reply n => Ok n
  | Failure msg =>
      Err (Wrapf (External msg) "failed to deserialize json data for node info struct")
  end.

(** The value that marks a node as likely down. *)
Definition likelyDown : string := "likely down".

Definition checkLikelyDown w (data : string) nodeID (originalError : error)
    : Go (string * option error) :=
  match Deserialize data with
  | Err err => ret ("", Some err)
  | Ok _redisData =>
      (* mark the node likely down if we can't reach this node in 10 mins it's down *)
      SetRedisKey w (getNodeKey nodeID) likelyDown (10 * 60) ;;
      ret ("", Some ErrLikelyDown)
  end.

(** [value != ""]. *)
Definition nonempty (value : string) : bool := negb (String.eqb value "").

(** [getNodeData]: wraps [fetchNodeData] and caches its result in Redis. *)
Definition getNodeData w nodeID (force : bool) : Go (string * option error) :=
  got <- GetRedisKey w (getNodeKey nodeID) ;;
  let value := got.1 in
  (* value exists just return it *)
  if nonempty value && negb force then ret (value, None)
  else
    fetched <- fetchNodeData w nodeID ;;
    match fetched with
    | Err fetchingNodesError =>
        if errors_Is fetchingNodesError ErrNodeNotFound then
          DeleteRedisKey w (getNodeKey nodeID) ;;
          ret ("", Some ErrNodeNotFound)
        else if nonempty value then
          checkLikelyDown w value nodeID fetchingNodesError
        else
          (* if node is down delete the key and return bad gateway *)
          DeleteRedisKey w (getNodeKey nodeID) ;;
          ret ("", Some (Wrapf ErrBadGateway (Error fetchingNodesError)))
    | Ok nodeInfo =>
        (* caching for 30 mins *)
        match Serialize nodeInfo with
        | Err err => ret ("", Some err)
        | Ok serializedNodeInfo =>
            SetRedisKey w (getNodeKey nodeID) serializedNodeInfo (30 * 60) ;;
            ret (serializedNodeInfo, None)
        end
    end.

(** Modelled from the spec: [getNodeCapacity] is called by [listNodes] and
    its body is not among the sources.  The spec has [listNodes] attach "the
    cached capacity figures" of a node that is up, so it reads the node's
    data through [getNodeData] and returns the capacity of the decoded
    snapshot. *)
Definition getNodeCapacity w nodeID (force : bool) : Go (result capacityResult) :=
  got <- getNodeData w nodeID force ;;
  match got.2 with
  | Some err => ret (Err err)
  | None =>
      match Deserialize got.1 with
      | Err err => ret (Err err)
      | Ok nodeInfo => ret (Ok (Capacity nodeInfo))
      end
  end.

(** [getAllNodesIDs]. *)
Definition getAllNodesIDs w : Go (result (list Z)) :=
  record QueryNodeIds ;;
  match explorer_nodeIds w with
  | Failure msg => ret (Err (Errorf_w "failed to query nodes" (External msg)))
  | Reply ids => ret (Ok ids)
  end.

(** [getAllNodes]. *)
Definition getAllNodes w (maxResult pageOffset : Z) (isSpecificFarm isGateway : string)
    : Go (result (list node)) :=
  record QueryNodes ;;
  match explorer_nodes w maxResult pageOffset isSpecificFarm isGateway with
  | Failure msg => ret (Err (Errorf_w "failed to query nodes" (External msg)))
  | Reply nodes => ret (Ok nodes)
  end.

(** ** server.go *)

(** What a handler writes: a text, a raw cached payload, a serialized
    [NodeStatus], or the marshalled list of nodes. *)
Inductive payload : Type :=
| BodyText (text : string)
| BodyRaw (data : string)
| BodyStatus (status : string)
| BodyNodes (nodeList : list node).

Record Response : Type := mkResponse {
  StatusCode : Z;
  Body : option payload
}.

Definition StatusOK : Z := 200.
Definition StatusNotFound : Z := 404.
Definition StatusInternalServerError : Z := 500.
Definition StatusBadGateway : Z := 502.

(** [http.StatusText]. *)
Definition StatusText (code : Z) : string :=
  if bool_decide (code = StatusNotFound) then "Not Found"
  else if bool_decide (code = StatusBadGateway) then "Bad Gateway"
  else if bool_decide (code = StatusInternalServerError) then "Internal Server Error"
  else if bool_decide (code = StatusOK) then "OK"
  else "".

Definition writeError (code : Z) : Response :=
  mkResponse code (Some (BodyText (StatusText code))).

Definition set_Status (st : string) (nd : node) : node :=
  mkNode (NodeID nd) (FarmID nd) (TwinID nd) (Country nd) (City nd)
         (TotalResources nd) (UsedResources nd) (Location nd) st.

Definition set_Location (l : location) (nd : node) : node :=
  mkNode (NodeID nd) (FarmID nd) (TwinID nd) (Country nd) (City nd)
         (TotalResources nd) (UsedResources nd) l (Status nd).

Definition set_Resources (total used : gridtypes_Capacity) (nd : node) : node :=
  mkNode (NodeID nd) (FarmID nd) (TwinID nd) (Country nd) (City nd)
         total used (Location nd) (Status nd).

(** [isStored != "" && isStored != "likely down"]. *)
Definition storedUp (isStored : string) : bool :=
  nonempty isStored && negb (String.eqb isStored likelyDown).

(** The body of the loop of [listNodes] for one node of the page: the node
    to append, or [None] where the source says [continue]. *)
Definition listNodes_body w (nd : node) : Go (option node) :=
  got <- GetRedisKey w (getNodeKey (pretty (NodeID nd))) ;;
  let isStored := got.1 in
  let nd := match got.2 with Some _ => set_Status "down" nd | None => nd end in
  let nd := if String.eqb isStored likelyDown then set_Status "likely down" nd else nd in
  let nd := if storedUp isStored then set_Status "up" nd else nd in
  let nd := set_Location (mkLocation (Country nd) (City nd)) nd in
  (* append the usage resources to the node object if it is up *)
  if String.eqb (Status nd) "up" then
    c <- getNodeCapacity w (pretty (NodeID nd)) false ;;
    match c with
    | Err _ => ret None
    | Ok capacity => ret (Some (set_Resources (Total capacity) (Used capacity) nd))
    end
  else ret (Some nd).

Fixpoint listNodes_loop w (nodes nodeList : list node) : Go (list node) :=
  match nodes with
  | [] => ret nodeList
  | nd :: rest =>
      r <- listNodes_body w nd ;;
      listNodes_loop w rest (match r with Some n => nodeList ++ [n] | None => nodeList end)
  end.

(** [listNodes], from the point where the query parameters are parsed. *)
Definition listNodes w (maxResult pageOffset : Z) (isSpecificFarm isGateway : string)
    : Go Response :=
  page <- getAllNodes w maxResult pageOffset isSpecificFarm isGateway ;;
  match page with
  | Err _ => ret (writeError StatusInternalServerError)
  | Ok nodes =>
      nodeList <- listNodes_loop w nodes [] ;;
      ret (mkResponse StatusOK (Some (BodyNodes nodeList)))
  end.

(** [getNode]: the snapshot endpoint. *)
Definition getNode w nodeID : Go Response :=
  got <- getNodeData w nodeID false ;;
  match got.2 with
  | Some err =>
      if errors_Is err ErrNodeNotFound then ret (writeError StatusNotFound)
      else if errors_Is err ErrBadGateway then ret (writeError StatusBadGateway)
      else ret (writeError StatusInternalServerError)
  | None => ret (mkResponse StatusOK (Some (BodyRaw got.1)))
  end.

(** [getNodeStatus]: the status endpoint.  A handler that writes nothing
    answers 200 with an empty body. *)
Definition getNodeStatus w nodeID : Go Response :=
  got <- GetRedisKey w (getNodeKey nodeID) ;;
  let isStored := got.1 in
  match got.2 with
  | Some _ => ret (mkResponse StatusOK (Some (BodyStatus "down")))
  | None =>
      if String.eqb isStored likelyDown then
        ret (mkResponse StatusOK (Some (BodyStatus "likely down")))
      else if storedUp isStored then
        ret (mkResponse StatusOK (Some (BodyStatus "up")))
      else ret (mkResponse StatusOK None)
  end.

(** ** The Fleet Refresher ([cacheNodesInfo])

    The goroutines of one cycle as an interleaving of atomic steps.  The main
    goroutine alternates between the send [channelLimit <- 1], which blocks
    while the buffer holds [maxGoRoutnes] tokens, and the [go] statement; it
    returns when the range is over, and the deferred [close] runs.  A worker
    first runs [getNodeData(nid, true)] and then receives from the channel. *)

Inductive mainPC : Type :=
| AtSend (pending : list Z)            (* about to send for the head of [pending] *)
| AtGo (nid : Z) (pending : list Z)    (* token sent, about to start the goroutine *)
| Returned.                            (* range over, channel closed *)

Inductive workerPC : Type :=
| Fetching                             (* before getNodeData returns *)
| Releasing.                           (* before [<-channelLimit] *)

#[global] Instance workerPC_eq_dec : EqDecision workerPC.
Proof. solve_decision. Defined.

Record Cycle : Type := mkCycle {
  main : mainPC;
  channelLimit : nat;                  (* tokens in the buffer *)
  closed : bool;
  workers : list (Z * workerPC);
  app : State
}.

(** The thread the scheduler runs next. *)
Inductive choice : Type :=
| RunMain
| RunWorker (i : nat).

(** One step of the chosen thread; [None] when it is blocked, finished or
    absent, or when it panics. *)
Definition cycle_step w (ch : choice) (c : Cycle) : option Cycle :=
  match ch with
  | RunMain =>
      match main c with
      | AtSend (nid :: rest) =>
          if decide (channelLimit c < maxGoRoutnes)
          then Some (mkCycle (AtGo nid rest) (S (channelLimit c)) (closed c) (workers c) (app c))
          else None
      | AtSend [] => Some (mkCycle Returned (channelLimit c) true (workers c) (app c))
      | AtGo nid rest =>
          Some (mkCycle (AtSend rest) (channelLimit c) (closed c)
                        (workers c ++ [(nid, Fetching)]) (app c))
      | Returned => None
      end
  | RunWorker i =>
      match workers c !! i with
      | Some (nid, Fetching) =>
          match getNodeData w (pretty nid) true (app c) with
          | Some (_, a') =>
              Some (mkCycle (main c) (channelLimit c) (closed c)
                            (<[i := (nid, Releasing)]> (workers c)) a')
          | None => None
          end
      | Some (nid, Releasing) =>
          if decide (0 < channelLimit c) then
            Some (mkCycle (main c) (pred (channelLimit c)) (closed c)
                          (delete i (workers c)) (app c))
          else if closed c then
            Some (mkCycle (main c) 0 (closed c) (delete i (workers c)) (app c))
          else None
      | None => None
      end
  end.

(** A schedule names, step by step, the thread that runs and the
    environment it meets. *)
Fixpoint cycle_run (schedule : list (World * choice)) (c : Cycle) : option Cycle :=
  match schedule with
  | [] => Some c
  | (w, ch) :: rest =>
      match cycle_step w ch c with
      | Some c' => cycle_run rest c'
      | None => None
      end
  end.

(** [cacheNodesInfo] up to the loop: the cycle it starts, if the Directory
    lists the nodes. *)
Definition cacheNodesInfo w : Go (option Cycle) :=
  r <- getAllNodesIDs w ;;
  match r with
  | Err _ => ret None
  | Ok nodeIds => s <- gets id ;; ret (Some (mkCycle (AtSend nodeIds) 0 false [] s))
  end.

(** Per-node fetches in flight: the workers inside [getNodeData]. *)
Definition inflight (c : Cycle) : nat :=
  length (filter (fun wk => wk.2 = Fetching) (workers c)).

(** ** Vocabulary of the properties *)

(** The two states agree on the Redis store and on the clock. *)
Definition same_store s s' : Prop := redis s' = redis s /\ clock s' = clock s.

(** Requests to the node itself, and twin-id queries, sent so far. *)
Definition probeCalls s : nat := length (filter (fun c => is_probe c = true) (calls s)).
Definition twinQueries s : nat := length (filter (fun c => is_twin_query c = true) (calls s)).

(** A value that [getNodeData] may leave under a node key: the marker or a
    serialized [NodeInfo]. *)
Definition node_entry (value : string) : Prop :=
  value = likelyDown \/ exists n : NodeInfo, json_Marshal n = Reply value.

Definition store_inv s : Prop :=
  forall key value expiry, redis s !! key = Some (value, expiry) -> node_entry value.

(** The part of [getNodeData] that follows [fetchNodeData]: what is done
    with the value read from Redis and the result of the fetch. *)
Definition afterFetch w nodeID (value : string) (fetched : result NodeInfo)
    : Go (string * option error) :=
  match fetched with
  | Err fetchingNodesError =>
      if errors_Is fetchingNodesError ErrNodeNotFound then
        DeleteRedisKey w (getNodeKey nodeID) ;;
        ret ("", Some ErrNodeNotFound)
      else if nonempty value then
        checkLikelyDown w value nodeID fetchingNodesError
      else
        DeleteRedisKey w (getNodeKey nodeID) ;;
        ret ("", Some (Wrapf ErrBadGateway (Error fetchingNodesError)))
  | Ok nodeInfo =>
      match Serialize nodeInfo with
      | Err err => ret ("", Some err)
      | Ok serializedNodeInfo =>
          SetRedisKey w (getNodeKey nodeID) serializedNodeInfo (30 * 60) ;;
          ret (serializedNodeInfo, None)
      end
  end.

(** The state after a request is recorded. *)
Definition recorded (c : call) s : State :=
  mkState (redis s) (lruCache s) (clock s) (c :: calls s).


(** Every token in the buffer of [channelLimit] belongs to one goroutine that
    is running or about to be started, and the buffer holds at most
    [maxGoRoutnes] tokens. *)
Definition cycle_inv (c : Cycle) : Prop :=
  length (workers c) + (match main c with AtGo _ _ => 1 | _ => 0 end) = channelLimit c
  /\ channelLimit c <= maxGoRoutnes.

(** The states the server can be in: [Setup] leaves [initState]; then any
    call of [getNodeData] or of a handler, any stretch of a Fleet Refresher
    cycle, under any environment, and any lapse of time. *)
Inductive reachable : State -> Prop :=
| reach_init : reachable initState
| reach_getNodeData w nodeID force s r s' :
    reachable s -> getNodeData w nodeID force s = Some (r, s') -> reachable s'
| reach_getNode w nodeID s r s' :
    reachable s -> getNode w nodeID s = Some (r, s') -> reachable s'
| reach_getNodeStatus w nodeID s r s' :
    reachable s -> getNodeStatus w nodeID s = Some (r, s') -> reachable s'
| reach_listNodes w maxResult pageOffset isSpecificFarm isGateway s r s' :
    reachable s ->
    listNodes w maxResult pageOffset isSpecificFarm isGateway s = Some (r, s') ->
    reachable s'
| reach_cacheNodesInfo w s c s0 schedule c' :
    reachable s ->
    cacheNodesInfo w s = Some (Some c, s0) ->
    cycle_run schedule c = Some c' ->
    reachable (app c')
| reach_sleep d s :
    reachable s -> reachable (sleep d s).

End Model.

Arguments Cycle : clear implicits.

(** ** Query parameters ([calculateMaxResult], [calculateOffset],
    [handleRequestsQueryParams]) *)

(** The double quote, for the texts that contain one. *)
Definition dquote : string := String "034"%char EmptyString.

(** Go's [int] on the 64-bit platforms the server is built for. *)
Definition minInt : Z := - 2 ^ 63.
Definition maxInt : Z := 2 ^ 63 - 1.

(** The value of an [int] expression after wrap-around. *)
Definition wrapInt (z : Z) : Z := (z + 2 ^ 63) mod 2 ^ 64 - 2 ^ 63.

Definition isDigit (a : ascii) : bool :=
  (48 <=? nat_of_ascii a)%nat && (nat_of_ascii a <=? 57)%nat.

(** The value of a run of decimal digits, [None] at the first other byte. *)
Fixpoint digitsValue (input : string) (acc : Z) : option Z :=
  match input with
  | EmptyString => Some acc
  | String a rest =>
      if isDigit a
      then digitsValue rest (10 * acc + (Z.of_nat (nat_of_ascii a) - 48))
      else None
  end.

Definition syntaxError (input : string) : error :=
  External ("strconv.Atoi: parsing " +:+ dquote +:+ input +:+ dquote +:+ ": invalid syntax").

Definition rangeError (input : string) : error :=
  External ("strconv.Atoi: parsing " +:+ dquote +:+ input +:+ dquote
            +:+ ": value out of range").

(** [strconv.Atoi]: an optional sign, then at least one decimal digit and
    nothing else; the value has to fit an [int]. *)
Definition Atoi (input : string) : result Z :=
  match input with
  | EmptyString => Err (syntaxError input)
  | String a rest =>
      let neg := Ascii.eqb a "-"%char in
      let body := if neg || Ascii.eqb a "+"%char then rest else input in
      match body with
      | EmptyString => Err (syntaxError input)
      | _ =>
          match digitsValue body 0 with
          | None => Err (syntaxError input)
          | Some n =>
              let v := if neg then (- n)%Z else n in
              if bool_decide (minInt <= v <= maxInt)%Z then Ok v
              else Err (rangeError input)
          end
      end
  end.

(** [strings.Contains]. *)
Fixpoint hasPrefix (input prefix : string) : bool :=
  match prefix with
  | EmptyString => true
  | String a prefix' =>
      match input with
      | String b input' => Ascii.eqb a b && hasPrefix input' prefix'
      | EmptyString => false
      end
  end.

Fixpoint strings_Contains (input substr : string) : bool :=
  hasPrefix input substr
  || match input with
     | String _ input' => strings_Contains input' substr
     | EmptyString => false
     end.

(** What the handlers read of a request: the text of its URL and, for each
    query parameter, [r.URL.Query().Get], empty when the parameter is
    absent. *)
Record Request : Type := mkRequest {
  URL : string;
  Query : string -> string
}.

Definition calculateMaxResult (r : Request) : result Z :=
  let maxResultPerpage := Query r "max_result" in
  let maxResultPerpage :=
    if String.eqb maxResultPerpage "" then "50" else maxResultPerpage in
  match Atoi maxResultPerpage with
  | Err err => Err (Errorf_w "invalid page number :" err)
  | Ok maxResult => Ok maxResult
  end.

Definition calculateOffset (maxResult : Z) (r : Request) : result Z :=
  let page := Query r "page" in
  let page := if String.eqb page "" then "1" else page in
  match Atoi page with
  | Err err => Err (Errorf_w "invalid page number :" err)
  | Ok pageNumber =>
      if bool_decide (pageNumber < 1)%Z
      then Err (External "invalid page number : %!w(<nil>)")
      else Ok (wrapInt ((pageNumber - 1) * maxResult))
  end.

(** The values [handleRequestsQueryParams] leaves in the request context. *)
Record QueryParams : Type := mkQueryParams {
  specificFarm : string;
  offset : Z;
  maxResult : Z;
  isGateway : string
}.

Definition gatewayFilter : string :=
  ",publicConfig_json: {domain_contains:" +:+ dquote +:+ "." +:+ dquote +:+ "}".

Definition handleRequestsQueryParams (r : Request) : result QueryParams :=
  let isGateway := if strings_Contains (URL r) "gateways" then gatewayFilter else "" in
  let farmID := Query r "farm_id" in
  let isSpecificFarm :=
    if String.eqb farmID "" then "" else ",farmId_eq:" +:+ farmID in
  match calculateMaxResult r with
  | Err err => Err err
  | Ok maxResult =>
      match calculateOffset maxResult r with
      | Err err => Err err
      | Ok offset => Ok (mkQueryParams isSpecificFarm offset maxResult isGateway)
      end
  end.

(** ** [http.ResponseWriter], as the handlers use it

    The first [WriteHeader] fixes the status code and sends the headers set
    so far; later calls of [WriteHeader] are ignored and headers added later
    are not sent.  A [Write] before any [WriteHeader] sends status 200. *)

Record ResponseWriter (B : Type) : Type := mkResponseWriter {
  rw_header : list (string * string);         (* w.Header() *)
  rw_sent : option (Z * list (string * string)); (* status and headers sent *)
  rw_body : list B                            (* what was written, in order *)
}.
Arguments mkResponseWriter {B} _ _ _.
Arguments rw_header {B} _.
Arguments rw_sent {B} _.
Arguments rw_body {B} _.

Definition newResponseWriter {B : Type} : ResponseWriter B := mkResponseWriter [] None [].

Definition Header_Set {B : Type} (k v : string) (rw : ResponseWriter B) : ResponseWriter B :=
  mkResponseWriter ((k, v) :: filter (fun kv => kv.1 <> k) (rw_header rw))
                   (rw_sent rw) (rw_body rw).

Definition Header_Add {B : Type} (k v : string) (rw : ResponseWriter B) : ResponseWriter B :=
  mkResponseWriter (rw_header rw ++ [(k, v)]) (rw_sent rw) (rw_body rw).

Definition WriteHeader {B : Type} (code : Z) (rw : ResponseWriter B) : ResponseWriter B :=
  match rw_sent rw with
  | Some _ => rw
  | None => mkResponseWriter (rw_header rw) (Some (code, rw_header rw)) (rw_body rw)
  end.

Definition Write {B : Type} (b : B) (rw : ResponseWriter B) : ResponseWriter B :=
  let rw := WriteHeader 200 rw in
  mkResponseWriter (rw_header rw) (rw_sent rw) (rw_body rw ++ [b]).

(** The status code the client receives. *)
Definition sentStatus {B : Type} (rw : ResponseWriter B) : Z :=
  match rw_sent rw with
  | Some (code, _) => code
  | None => 200
  end.

(** The headers the client receives. *)
Definition sentHeaders {B : Type} (rw : ResponseWriter B) : list (string * string) :=
  match rw_sent rw with
  | Some (_, headers) => headers
  | None => rw_header rw
  end.

Definition StatusBadRequest : Z := 400.

(** [enableCors]. *)
Definition enableCors {B : Type} (rw : ResponseWriter B) : ResponseWriter B :=
  Header_Set "Access-Control-Allow-Origin" "*" rw.

(** ** [listFarms]

    The farms come from the Directory; [db_Farm] is the type of one farm and
    [explorer_farms] the answer of the Directory to the farms query with the
    given limit and offset.  A query that fails leaves [farms] at its zero
    value.  [json.Marshal] of a slice of farms, plain structs of strings and
    numbers, returns no error, so the branch for it is left out. *)

Inductive farmsBody (db_Farm : Type) : Type :=
| FarmsText (text : string)
| FarmsJSON (farms : list db_Farm).      (* json.Marshal(farms.Data.Farms) *)
Arguments FarmsText {db_Farm} text.
Arguments FarmsJSON {db_Farm} farms.

Definition listFarms {db_Farm : Type}
    (explorer_farms : Z -> Z -> reply (list db_Farm)) (r : Request)
    (w : ResponseWriter (farmsBody db_Farm)) : ResponseWriter (farmsBody db_Farm) :=
  let w := enableCors w in
  match handleRequestsQueryParams r with
  | Err _ =>
      Write (FarmsText "Bad Request") (WriteHeader StatusBadRequest w)
  | Ok params =>
      (* farms := FarmResult{}; err = a.query(queryString, &farms) *)
      let answer := explorer_farms (maxResult params) (offset params) in
      let farms := match answer with Reply l => l | Failure _ => [] end in
      let w :=
        match answer with
        | Failure _ =>
            Write (FarmsText "Internal Server Error")
                  (WriteHeader StatusInternalServerError w)
        | Reply _ => w
        end in
      (* no return after the error: the farms are marshalled and written *)
      let w := Header_Add "Content-Type" "application/json" w in
      Write (FarmsJSON farms) (WriteHeader StatusOK w)
  end.

(** ** [roundTotalMemory] (types file)

    [gridtypes.Unit] is a [uint64].  [float64(x)] of a [uint64] is [x]
    itself below [2^53] and otherwise the nearest multiple of the spacing of
    the doubles at [x], ties going to the even mantissa.  Dividing a double
    by [float64(Gigabyte) = 2^30] only lowers its exponent and is exact, and
    so is [math.Floor]; the result is at most [2^34] and converts to a
    [Unit] unchanged; the product with [Gigabyte] is taken in [uint64]. *)

Definition gridtypes_Gigabyte : N := 1024 * 1024 * 1024.

Definition wrapUint64 (z : Z) : Z := z mod 2 ^ 64.

(** The value of [float64(x)] for a [uint64] [x]. *)
Definition float64_of_uint64 (x : Z) : Z :=
  if (x <? 2 ^ 53)%Z then x
  else
    let e := (Z.log2 x - 52)%Z in              (* spacing 2^e at x *)
    let q := (x / 2 ^ e)%Z in
    let r := (x mod 2 ^ e)%Z in
    let half := (2 ^ (e - 1))%Z in
    let q' := if (r <? half)%Z then q
              else if (half <? r)%Z then (q + 1)%Z
              else if Z.even q then q else (q + 1)%Z in
    (q' * 2 ^ e)%Z.

Definition roundTotalMemory (cap : gridtypes_Capacity) : gridtypes_Capacity :=
  mkCapacity
    (CRU cap) (SRU cap) (HRU cap)
    (Z.to_N (wrapUint64
       (float64_of_uint64 (Z.of_N (MRU cap)) / Z.of_N gridtypes_Gigabyte
        * Z.of_N gridtypes_Gigabyte)))
    (IPV4U cap).

Section Handlers.

Context {dmi_DMI : Type} {J : JSON dmi_DMI}.

Local Abbreviation State := (State dmi_DMI).
Local Abbreviation World := (World dmi_DMI).
Local Abbreviation Cycle := (Cycle dmi_DMI).

Implicit Types (s : State) (w : World) (nodeID key : string).

(** [listNodes] as the router calls it: the query parameters are parsed
    first, and a request whose parameters do not parse is answered 400. *)
Definition listNodesHandler w (r : Request) : M State Response :=
  match handleRequestsQueryParams r with
  | Err _ => ret (mkResponse StatusBadRequest (Some (BodyText "Bad Request")))
  | Ok params =>
      listNodes w (maxResult params) (offset params) (specificFarm params) (isGateway params)
  end.

(** *** Vocabulary of the further properties *)

Fixpoint allDigits (input : string) : bool :=
  match input with
  | EmptyString => true
  | String a rest => isDigit a && allDigits rest
  end.

Fixpoint lastChar (input : string) : option ascii :=
  match input with
  | EmptyString => None
  | String a rest => match lastChar rest with Some b => Some b | None => Some a end
  end.

(** A node id as the router admits it ([{node_id:[0-9]+}]) and as
    [fmt.Sprint] prints a non-negative [int]. *)
Definition numericID nodeID : bool := nonempty nodeID && allDigits nodeID.

(** The objects of the identity cache sit under the keys of their kind:
    twin ids under node ids, and the hardware facts, which never expire,
    under the hypervisor and inventory keys. *)
Definition lru_typed s : Prop :=
  forall k it, lruCache s !! k = Some it ->
    match Object it with
    | VUint32 _ => numericID k = true
    | VString _ => (exists nodeID, k = hypervisorKey nodeID) /\ Expiration it = 0%N
    | VDMI _ => (exists nodeID, k = dmiKey nodeID) /\ Expiration it = 0%N
    end.

(** The node [nd'] that [listNodes] writes for the node [nd] of the page:
    the same identity, and the location filled from country and city. *)
Definition listed (nd nd' : node) : Prop :=
  NodeID nd' = NodeID nd /\ FarmID nd' = FarmID nd /\ TwinID nd' = TwinID nd
  /\ Country nd' = Country nd /\ City nd' = City nd
  /\ Location nd' = mkLocation (Country nd) (City nd).

(** Requests for the hardware facts of a node. *)
Definition is_hardware_call (c : call) : bool :=
  match c with
  | SystemHypervisor _ | SystemDMI _ => true
  | _ => false
  end.

Definition hardwareCalls s : nat :=
  length (filter (fun c => is_hardware_call c = true) (calls s)).

(** A stretch of time in which every forced fetch of the node fails with
    an error other than [ErrNodeNotFound], Redis being reachable. *)
Inductive unreachable_run nodeID : State -> State -> Prop :=
| ur_start s : unreachable_run nodeID s s
| ur_sleep d s s' :
    unreachable_run nodeID s s' -> unreachable_run nodeID s (sleep d s')
| ur_fetch w s s' e s1 r s2 :
    unreachable_run nodeID s s' ->
    redis_up w = true ->
    fetchNodeData w nodeID s' = Some (Err e, s1) ->
    errors_Is e ErrNodeNotFound = false ->
    getNodeData w nodeID true s' = Some (r, s2) ->
    unreachable_run nodeID s s2.

(** The steps a cycle has left: four for each node still to be started
    (send, go, fetch, receive), the rest of those of the started ones, and
    the return. *)
Definition worker_steps (wk : Z * workerPC) : nat :=
  match wk.2 with
  | Fetching => 2
  | Releasing => 1
  end.

Definition cycle_measure (c : Cycle) : nat :=
  match main c with
  | AtSend pending => 4 * length pending + 1
  | AtGo _ pending => 4 * length pending + 4
  | Returned => 0
  end
  + sum_list (worker_steps <$> workers c).

(** The node ids of a cycle are non-negative. *)
Definition cycle_ids_ok (c : Cycle) : Prop :=
  match main c with
  | AtSend pending => Forall (fun nid => 0 <= nid)%Z pending
  | AtGo nid pending => (0 <= nid)%Z /\ Forall (fun nid => 0 <= nid)%Z pending
  | Returned => True
  end
  /\ Forall (fun wk => 0 <= wk.1)%Z (workers c).

End Handlers.

(** ** A concrete instance for the examples

    A codec for [NodeInfo] with an empty inventory, writing and reading the
    JSON text for numbers and for strings that need no escaping, and the
    environments and states the examples run in. *)

Module ExampleJSON.

Definition dq : string := String "034"%char EmptyString.

Definition quoted (x : string) : string := dq +:+ x +:+ dq.

Definition field (name value : string) : string := quoted name +:+ ":" +:+ value.

Definition encCapacity (c : gridtypes_Capacity) : string :=
  "{" +:+ field "cru" (pretty (CRU c)) +:+ "," +:+ field "sru" (pretty (SRU c))
      +:+ "," +:+ field "hru" (pretty (HRU c)) +:+ "," +:+ field "mru" (pretty (MRU c))
      +:+ "," +:+ field "ipv4u" (pretty (IPV4U c)) +:+ "}".

Definition encode (n : NodeInfo unit) : string :=
  String "{"%char
    (field "capacity"
       ("{" +:+ field "total_resources" (encCapacity (Total (Capacity n)))
            +:+ "," +:+ field "used_resources" (encCapacity (Used (Capacity n))) +:+ "}")
     +:+ "," +:+ field "dmi" "{}"
     +:+ "," +:+ field "hypervisor" (quoted (Hypervisor n))
     +:+ "," +:+ field "zosVersion" (quoted (ZosVersion n)) +:+ "}").

(** Reading: each reader consumes a prefix of the input. *)
Fixpoint expect (p input : string) : option string :=
  match p with
  | EmptyString => Some input
  | String a p' =>
      match input with
      | String b input' => if Ascii.eqb a b then expect p' input' else None
      | EmptyString => None
      end
  end.

Definition is_digit (a : ascii) : bool :=
  (48 <=? nat_of_ascii a)%nat && (nat_of_ascii a <=? 57)%nat.

Fixpoint digits (input : string) (acc : option N) : option N * string :=
  match input with
  | String a input' =>
      if is_digit a
      then digits input' (Some (10 * default 0 acc + N.of_nat (nat_of_ascii a - 48))%N)
      else (acc, input)
  | EmptyString => (acc, input)
  end.

Definition number (input : string) : option (N * string) :=
  match digits input None with
  | (Some n, rest) => Some (n, rest)
  | (None, _) => None
  end.

Fixpoint until_quote (input : string) : option (string * string) :=
  match input with
  | EmptyString => None
  | String a input' =>
      if Ascii.eqb a "034"%char then Some (EmptyString, input')
      else match until_quote input' with
           | Some (x, rest) => Some (String a x, rest)
           | None => None
           end
  end.

Definition text (input : string) : option (string * string) :=
  input ← expect dq input; until_quote input.

Definition named {A : Type} (name : string) (reader : string -> option (A * string))
    (input : string) : option (A * string) :=
  input ← expect (quoted name +:+ ":") input; reader input.

Definition decCapacity (input : string) : option (gridtypes_Capacity * string) :=
  input ← expect "{" input;
  '(cru, input) ← named "cru" number input;
  input ← expect "," input;
  '(sru, input) ← named "sru" number input;
  input ← expect "," input;
  '(hru, input) ← named "hru" number input;
  input ← expect "," input;
  '(mru, input) ← named "mru" number input;
  input ← expect "," input;
  '(ipv4u, input) ← named "ipv4u" number input;
  input ← expect "}" input;
  Some (mkCapacity cru sru hru mru ipv4u, input).

Definition decNodeInfo (input : string) : option (NodeInfo unit * string) :=
  input ← expect "{" input;
  input ← expect (quoted "capacity" +:+ ":{") input;
  '(total, input) ← named "total_resources" decCapacity input;
  input ← expect "," input;
  '(used, input) ← named "used_resources" decCapacity input;
  input ← expect "}," input;
  input ← expect (field "dmi" "{}" +:+ ",") input;
  '(hypervisor, input) ← named "hypervisor" text input;
  input ← expect "," input;
  '(version, input) ← named "zosVersion" text input;
  input ← expect "}" input;
  Some (mkNodeInfo (mkCapacityResult total used) tt hypervisor version, input).

Definition decode (input : string) : reply (NodeInfo unit) :=
  match decNodeInfo input with
  | Some (n, EmptyString) => Reply n
  | _ => Failure "invalid JSON"
  end.

End ExampleJSON.

#[global, refine] Instance exampleJSON : JSON unit :=
  {| json_Marshal n := Reply (ExampleJSON.encode n);
     json_Unmarshal := ExampleJSON.decode |}.
Proof.
  - intros n bytes [= <-]. discriminate.
  - intros n H. vm_compute in H. discriminate.
  - intros n H. vm_compute in H. discriminate.
Defined.

(** Node 42: four cores of which one is used. *)
Definition exSnapshot : NodeInfo unit :=
  mkNodeInfo (mkCapacityResult (mkCapacity 4 0 0 0 0) (mkCapacity 1 0 0 0 0)) tt "kvm" "3.0.1".

Definition exValue : string := Eval vm_compute in ExampleJSON.encode exSnapshot.

(** The node as the Directory lists it in a page. *)
Definition exNode : node :=
  mkNode 42 1 7 "BE" "Ghent" zeroCapacity zeroCapacity (mkLocation "" "") "".

(** The Directory knows node 42 with twin 7 and the node answers. *)
Definition worldUp : World unit :=
  mkWorld (fun nodeID => if String.eqb nodeID "42" then Reply [7%N] else Reply [])
          (Reply [42%Z; 43%Z; 44%Z])
          (fun _ _ _ _ => Reply [exNode])
          (fun _ => Reply (mkCapacity 4 0 0 0 0, mkCapacity 1 0 0 0 0))
          (fun _ => Reply "3.0.1")
          (fun _ => Reply "kvm")
          (fun _ => Reply tt)
          true.

(** The same Directory, but requests to the node time out. *)
Definition worldDown : World unit :=
  mkWorld (explorer_twin worldUp) (explorer_nodeIds worldUp) (explorer_nodes worldUp)
          (fun _ => Failure "context deadline exceeded")
          (fun _ => Failure "context deadline exceeded")
          (fun _ => Failure "context deadline exceeded")
          (fun _ => Failure "context deadline exceeded")
          true.

(** The Directory lists no node at all. *)
Definition worldGone : World unit :=
  mkWorld (fun _ => Reply []) (Reply []) (fun _ _ _ _ => Reply [])
          (rmb_Counters worldDown) (rmb_SystemVersion worldDown)
          (rmb_SystemHypervisor worldDown) (rmb_SystemDMI worldDown)
          true.

(** Node 42 cached as up at instant 0, nothing in the identity cache. *)
Definition exCached : State unit :=
  mkState {[ getNodeKey "42" := (exValue, 1800%N) ]} ∅ 0 [].

(** Node 42 marked likely down at instant 0. *)
Definition exMarked : State unit :=
  mkState {[ getNodeKey "42" := (likelyDown, 600%N) ]} ∅ 0 [].

(** The state after a forced, successful [getNodeData] for node 42 right
    after [Setup]. *)
Definition exRefreshed : State unit :=
  Eval vm_compute in
    match getNodeData worldUp "42" true initState with
    | Some (_, s) => s
    | None => initState
    end.

(** The error of a fetch whose first request to the node times out. *)
Definition exTimeout : error :=
  Wrapf (External "context deadline exceeded") "error fetching node statistics".

(** The cycle that [cacheNodesInfo] starts right after [Setup], and a
    schedule: two tokens sent, two workers started, the first one done. *)
Definition exCycle : Cycle unit :=
  mkCycle (AtSend [42%Z; 43%Z; 44%Z]) 0 false [] (recorded QueryNodeIds initState).

Definition exSchedule : list (World unit * choice) :=
  [(worldUp, RunMain); (worldUp, RunMain); (worldUp, RunMain); (worldUp, RunMain);
   (worldUp, RunWorker 0)].

(** The marked state after one more forced fetch has timed out. *)
Definition exMarkedRetried : State unit :=
  recorded (Counters 7)
    (set_lruCache (fun m => <["42" := mkItem (VUint32 7) 120%N]> m)
       (recorded (QueryTwin "42") exMarked)).

(** Requests for the third page of twenty nodes, and for page zero. *)
Definition exRequest : Request :=
  mkRequest "/nodes?page=3&max_result=20"
    (fun k => if String.eqb k "page" then "3"
              else if String.eqb k "max_result" then "20" else "").

Definition exBadRequest : Request :=
  mkRequest "/nodes?page=0" (fun k => if String.eqb k "page" then "0" else "").

(** Four cores and eight gigabytes and five bytes of memory. *)
Definition exCapacity : gridtypes_Capacity := mkCapacity 4 0 0 8589934597 0.

(** C1 as it is stated, for the node [nd] of a Directory page, in state [s]
    under environment [w]: if the node's key holds a snapshot and the forced
    fetch fails, then afterwards the key still yields the snapshot and
    [listNodes] shows the node with the capacity of that snapshot. *)
Definition snapshot_survives_failed_probe
    {dmi_DMI : Type} {J : JSON dmi_DMI}
    (w : World dmi_DMI) (s : State dmi_DMI) (nd : node) : Prop :=
  let nodeID := pretty (NodeID nd) in
  forall value n e s1,
    redis_GET s (getNodeKey nodeID) = Some value ->
    json_Unmarshal value = Reply n ->
    fetchNodeData w nodeID s = Some (Err e, s1) ->
    exists r s2,
      getNodeData w nodeID true s = Some (r, s2)
      /\ redis_GET s2 (getNodeKey nodeID) = Some value
      /\ exists resp s3 nodeList nd',
           listNodes w 50 0 "" "" s2 = Some (resp, s3)
           /\ Body resp = Some (BodyNodes nodeList)
           /\ nd' ∈ nodeList
           /\ NodeID nd' = NodeID nd
           /\ TotalResources nd' = Total (Capacity n)
           /\ UsedResources nd' = Used (Capacity n).

Section Proofs.

Context {dmi_DMI : Type} {J : JSON dmi_DMI}.

Local Abbreviation State := (State dmi_DMI).
Local Abbreviation World := (World dmi_DMI).
Local Abbreviation NodeInfo := (NodeInfo dmi_DMI).
Local Abbreviation Cycle := (Cycle dmi_DMI).

Implicit Types (s : State) (w : World) (nodeID key : string) (c : Cycle).

(** Unfold the monad. *)
Ltac go_unfold :=
  unfold bind, ret, gets, modify, record, panic in *; simpl in *.

(** Split on the scrutinee of the first [match] of [H]. *)
Ltac go_case_in H :=
  match type of H with
  | context [match ?x with _ => _ end] => destruct x eqn:?
  | context [if ?x then _ else _] => destruct x eqn:?
  end; simpl in *.

(** *** The Redis helpers *)

Lemma GetRedisKey_hit w key s value :
  redis_up w = true ->
  redis_GET s key = Some value ->
  GetRedisKey w key s = Some ((value, None), s).
Proof. intros Hup Hget. unfold GetRedisKey. rewrite Hup. go_unfold. by rewrite Hget. Qed.

Lemma GetRedisKey_miss w key s :
  redis_up w = true ->
  redis_GET s key = None ->
  GetRedisKey w key s = Some (("", Some ErrNil), s).
Proof. intros Hup Hget. unfold GetRedisKey. rewrite Hup. go_unfold. by rewrite Hget. Qed.

Lemma GetRedisKey_state w key s r s' :
  GetRedisKey w key s = Some (r, s') -> s' = s.
Proof.
  unfold GetRedisKey. destruct (redis_up w); go_unfold.
  - destruct (redis_GET s key); go_unfold; congruence.
  - congruence.
Qed.

Lemma GetRedisKey_total w key s :
  exists r, GetRedisKey w key s = Some (r, s).
Proof.
  unfold GetRedisKey. destruct (redis_up w); go_unfold; eauto.
  destruct (redis_GET s key); go_unfold; eauto.
Qed.

Lemma redis_GET_insert s key value ttl :
  (0 < ttl)%N ->
  redis_GET (set_redis (fun m => <[key := (value, (clock s + ttl)%N)]> m) s) key = Some value.
Proof.
  intros Httl. unfold redis_GET, set_redis. simpl. rewrite lookup_insert_eq.
  rewrite bool_decide_eq_true_2; [done | lia].
Qed.

Lemma redis_GET_delete s key :
  redis_GET (set_redis (fun m => delete key m) s) key = None.
Proof. unfold redis_GET, set_redis. simpl. by rewrite lookup_delete_eq. Qed.

(** *** Time *)

Lemma tick_redis s : redis (tick s) = redis s.
Proof. unfold tick. case_bool_decide; reflexivity. Qed.

Lemma tick_clock s : clock (tick s) = (clock s + 1)%N.
Proof. unfold tick. case_bool_decide; reflexivity. Qed.

Lemma tick_calls s : calls (tick s) = calls s.
Proof. unfold tick. case_bool_decide; reflexivity. Qed.

Lemma sleep_redis d s : redis (sleep d s) = redis s.
Proof. revert s. induction d as [|d IH]; intros s; simpl; [done|]. by rewrite IH, tick_redis. Qed.

Lemma sleep_clock d s : clock (sleep d s) = (clock s + N.of_nat d)%N.
Proof.
  revert s. induction d as [|d IH]; intros s; simpl; [lia|].
  rewrite IH, tick_clock. lia.
Qed.

Lemma sleep_calls d s : calls (sleep d s) = calls s.
Proof. revert s. induction d as [|d IH]; intros s; simpl; [done|]. by rewrite IH, tick_calls. Qed.

(** *** The fetch pipeline leaves the Redis store and the clock alone *)

Lemma same_store_refl s : same_store s s.
Proof. by split. Qed.

Lemma same_store_trans s1 s2 s3 : same_store s1 s2 -> same_store s2 s3 -> same_store s1 s3.
Proof. intros [? ?] [? ?]. split; congruence. Qed.


Lemma getNodeTwinID_store w nodeID s r s' :
  getNodeTwinID w nodeID s = Some (r, s') -> same_store s s'.
Proof.
  unfold getNodeTwinID, query_twin, cache_Get, cache_Set. go_unfold.
  intros H. repeat go_case_in H; simplify_eq; by split.
Qed.

Lemma getNodeHypervisor_store w nodeID twin s r s' :
  getNodeHypervisor w nodeID twin s = Some (r, s') -> same_store s s'.
Proof.
  unfold getNodeHypervisor, cache_Get, cache_Set. go_unfold.
  intros H. repeat go_case_in H; simplify_eq; by split.
Qed.

Lemma getNodeDMI_store w nodeID twin s r s' :
  getNodeDMI w nodeID twin s = Some (r, s') -> same_store s s'.
Proof.
  unfold getNodeDMI, cache_Get, cache_Set. go_unfold.
  intros H. repeat go_case_in H; simplify_eq; by split.
Qed.

Lemma fetchNodeData_store w nodeID s r s' :
  fetchNodeData w nodeID s = Some (r, s') -> same_store s s'.
Proof.
  unfold fetchNodeData. unfold bind at 1.
  destruct (getNodeTwinID w nodeID s) as [[r1 s1]|] eqn:H1; [|done].
  apply getNodeTwinID_store in H1.
  destruct r1 as [twin|e]; [|go_unfold; intros; simplify_eq; done].
  unfold bind at 1. unfold record at 1. unfold modify at 1.
  destruct (rmb_Counters w twin) as [[total used]|msg];
    [|go_unfold; intros; simplify_eq; destruct H1; by split].
  unfold bind at 1. unfold record at 1. unfold modify at 1.
  destruct (rmb_SystemVersion w twin) as [version|msg];
    [|go_unfold; intros; simplify_eq; destruct H1; by split].
  unfold bind at 1.
  match goal with |- context [getNodeHypervisor w nodeID twin ?st] =>
    destruct (getNodeHypervisor w nodeID twin st) as [[r2 s2]|] eqn:H2; [|done] end.
  apply getNodeHypervisor_store in H2.
  destruct r2 as [hyp|e];
    [|go_unfold; intros; simplify_eq; eapply same_store_trans; [|exact H2]; destruct H1; by split].
  unfold bind at 1.
  destruct (getNodeDMI w nodeID twin s2) as [[r3 s3]|] eqn:H3; [|done].
  apply getNodeDMI_store in H3.
  assert (same_store s s3).
  { eapply same_store_trans; [|exact H3]. eapply same_store_trans; [|exact H2].
    destruct H1; by split. }
  destruct r3; go_unfold; intros; simplify_eq; done.
Qed.

(** *** [getNodeData] *)

Lemma nonempty_true value : value <> "" -> nonempty value = true.
Proof. intros H. unfold nonempty. by apply negb_true_iff, String.eqb_neq. Qed.

Lemma nonempty_empty : nonempty "" = false.
Proof. reflexivity. Qed.

Lemma Deserialize_Reply data n : json_Unmarshal data = Reply n -> Deserialize data = Ok n.
Proof. intros H. unfold Deserialize. by rewrite H. Qed.

Lemma snapshot_nonempty data n : json_Unmarshal data = Reply n -> data <> "".
Proof. intros H ->. by apply json_Unmarshal_empty in H. Qed.

Lemma getNodeData_cached w nodeID s value :
  redis_up w = true ->
  redis_GET s (getNodeKey nodeID) = Some value ->
  value <> "" ->
  getNodeData w nodeID false s = Some ((value, None), s).
Proof.
  intros Hup Hget Hne. unfold getNodeData. unfold bind at 1.
  rewrite (GetRedisKey_hit _ _ _ _ Hup Hget). simpl.
  by rewrite (nonempty_true _ Hne).
Qed.

(** A failed fetch over an entry that decodes as a snapshot: the marker is
    written over it for ten minutes and [ErrLikelyDown] is returned. *)
Lemma getNodeData_marks_likely_down w nodeID s value n e s1 :
  redis_up w = true ->
  redis_GET s (getNodeKey nodeID) = Some value ->
  json_Unmarshal value = Reply n ->
  fetchNodeData w nodeID s = Some (Err e, s1) ->
  errors_Is e ErrNodeNotFound = false ->
  getNodeData w nodeID true s =
    Some (("", Some ErrLikelyDown),
          set_redis (fun m => <[getNodeKey nodeID := (likelyDown, (clock s1 + 10 * 60)%N)]> m) s1).
Proof.
  intros Hup Hget Hsnap Hfetch Hnf. unfold getNodeData. unfold bind at 1.
  rewrite (GetRedisKey_hit _ _ _ _ Hup Hget). simpl.
  rewrite andb_false_r. unfold bind at 1. rewrite Hfetch, Hnf.
  rewrite (nonempty_true _ (snapshot_nonempty _ _ Hsnap)).
  unfold checkLikelyDown. rewrite (Deserialize_Reply _ _ Hsnap).
  unfold SetRedisKey. rewrite Hup. reflexivity.
Qed.

(** The Directory has no such node: the key is deleted and
    [ErrNodeNotFound] is returned, whatever the key held. *)
Lemma getNodeData_not_found w nodeID force s s1 :
  redis_up w = true ->
  force = true \/ redis_GET s (getNodeKey nodeID) = None ->
  fetchNodeData w nodeID s = Some (Err ErrNodeNotFound, s1) ->
  getNodeData w nodeID force s =
    Some (("", Some ErrNodeNotFound), set_redis (fun m => delete (getNodeKey nodeID) m) s1).
Proof.
  intros Hup Hmiss Hfetch. unfold getNodeData. unfold bind at 1.
  destruct (GetRedisKey_total w (getNodeKey nodeID) s) as [[value e0] Hg]. rewrite Hg. simpl.
  assert (nonempty value && negb force = false) as ->.
  { destruct Hmiss as [-> | Hnone]; [by rewrite andb_false_r|].
    rewrite (GetRedisKey_miss _ _ _ Hup Hnone) in Hg. by simplify_eq. }
  unfold bind at 1. rewrite Hfetch. simpl.
  unfold DeleteRedisKey. rewrite Hup. reflexivity.
Qed.

(** A failed fetch with nothing under the key: the key is deleted and a
    wrapped [ErrBadGateway] is returned. *)
Lemma getNodeData_bad_gateway w nodeID force s e s1 :
  redis_up w = true ->
  redis_GET s (getNodeKey nodeID) = None ->
  fetchNodeData w nodeID s = Some (Err e, s1) ->
  errors_Is e ErrNodeNotFound = false ->
  getNodeData w nodeID force s =
    Some (("", Some (Wrapf ErrBadGateway (Error e))),
          set_redis (fun m => delete (getNodeKey nodeID) m) s1).
Proof.
  intros Hup Hnone Hfetch Hnf. unfold getNodeData. unfold bind at 1.
  rewrite (GetRedisKey_miss _ _ _ Hup Hnone). simpl.
  unfold bind at 1. rewrite Hfetch, Hnf. simpl.
  unfold DeleteRedisKey. rewrite Hup. reflexivity.
Qed.

(** *** The read path *)

Lemma getNodeStatus_likely_down w nodeID s :
  redis_up w = true ->
  redis_GET s (getNodeKey nodeID) = Some likelyDown ->
  getNodeStatus w nodeID s = Some (mkResponse StatusOK (Some (BodyStatus "likely down")), s).
Proof.
  intros Hup Hget. unfold getNodeStatus. unfold bind at 1.
  by rewrite (GetRedisKey_hit _ _ _ _ Hup Hget).
Qed.

Lemma getNodeStatus_down w nodeID s :
  redis_GET s (getNodeKey nodeID) = None ->
  getNodeStatus w nodeID s = Some (mkResponse StatusOK (Some (BodyStatus "down")), s).
Proof.
  intros Hget. unfold getNodeStatus, GetRedisKey. unfold bind at 1.
  destruct (redis_up w); go_unfold; [by rewrite Hget | done].
Qed.

Lemma getNode_of_getNodeData w nodeID s value e s' :
  getNodeData w nodeID false s = Some ((value, Some e), s') ->
  getNode w nodeID s =
    Some (writeError (if errors_Is e ErrNodeNotFound then StatusNotFound
                      else if errors_Is e ErrBadGateway then StatusBadGateway
                      else StatusInternalServerError), s').
Proof.
  intros H. unfold getNode. unfold bind at 1. rewrite H. simpl.
  by repeat case_match.
Qed.

Lemma getNode_cached w nodeID s value :
  redis_up w = true ->
  redis_GET s (getNodeKey nodeID) = Some value ->
  value <> "" ->
  getNode w nodeID s = Some (mkResponse StatusOK (Some (BodyRaw value)), s).
Proof.
  intros Hup Hget Hne. unfold getNode. unfold bind at 1.
  by rewrite (getNodeData_cached _ _ _ _ Hup Hget Hne).
Qed.

(** Twin resolution when the identity cache has nothing fresh and the
    Directory lists no such node. *)
Lemma fetchNodeData_not_found w nodeID s :
  cache_lookup s nodeID = None ->
  explorer_twin w nodeID = Reply [] ->
  fetchNodeData w nodeID s =
    Some (Err ErrNodeNotFound,
          mkState (redis s) (lruCache s) (clock s) (QueryTwin nodeID :: calls s)).
Proof.
  intros Hc Hdir. unfold fetchNodeData, getNodeTwinID, query_twin, cache_Get.
  go_unfold. by rewrite Hc, Hdir.
Qed.

Lemma sleep_GET_live d s key value expiry :
  redis s !! key = Some (value, expiry) ->
  (clock s + N.of_nat d < expiry)%N ->
  redis_GET (sleep d s) key = Some value.
Proof.
  intros Hk Hlt. unfold redis_GET. rewrite sleep_redis, sleep_clock, Hk.
  by rewrite bool_decide_eq_true_2.
Qed.

Lemma sleep_GET_absent d s key :
  redis s !! key = None -> redis_GET (sleep d s) key = None.
Proof. intros Hk. unfold redis_GET. by rewrite sleep_redis, Hk. Qed.

Lemma listNodes_body_likely_down w nd s :
  redis_up w = true ->
  redis_GET s (getNodeKey (pretty (NodeID nd))) = Some likelyDown ->
  listNodes_body w nd s =
    Some (Some (set_Location (mkLocation (Country nd) (City nd)) (set_Status "likely down" nd)), s).
Proof.
  intros Hup Hget. unfold listNodes_body. unfold bind at 1.
  by rewrite (GetRedisKey_hit _ _ _ _ Hup Hget).
Qed.

(** ** The claims *)

(** C3.  For a node whose key holds a live (unexpired) entry, the non-forced
    [getNodeData] returns the stored value with a nil error and leaves the
    whole state as it was: the identity cache is not consulted, and no twin
    query and no request to the node is sent (the counts of both stay where
    they were).  The source takes the empty string for an absent value, so
    the entry is a non-empty one, as every value written by [getNodeData]
    is. *)
Theorem getNodeData_live_entry_no_probe w nodeID s value :
  redis_up w = true ->
  redis_GET s (getNodeKey nodeID) = Some value ->
  value <> "" ->
  exists s',
    getNodeData w nodeID false s = Some ((value, None), s')
    /\ s' = s
    /\ probeCalls s' = probeCalls s
    /\ twinQueries s' = twinQueries s.
Proof.
  intros Hup Hget Hne. exists s.
  by rewrite (getNodeData_cached _ _ _ _ Hup Hget Hne).
Qed.

(** C4.  For a node whose key holds a snapshot, when the fetch that
    [getNodeData] runs (the forced call) fails with an error that is not
    [ErrNodeNotFound], [getNodeData] returns [ErrLikelyDown] and stores the
    marker under the node's key with a time to live of ten minutes; until
    these have passed the status endpoint answers "likely down". *)
Theorem failed_probe_writes_likely_down_marker w nodeID s value n e s1 :
  redis_up w = true ->
  redis_GET s (getNodeKey nodeID) = Some value ->
  json_Unmarshal value = Reply n ->
  fetchNodeData w nodeID s = Some (Err e, s1) ->
  errors_Is e ErrNodeNotFound = false ->
  exists s2,
    getNodeData w nodeID true s = Some (("", Some ErrLikelyDown), s2)
    /\ redis s2 !! getNodeKey nodeID = Some (likelyDown, (clock s + 10 * 60)%N)
    /\ forall w' (d : nat), redis_up w' = true -> d < 10 * 60 ->
         getNodeStatus w' nodeID (sleep d s2) =
           Some (mkResponse StatusOK (Some (BodyStatus "likely down")), sleep d s2).
Proof.
  intros Hup Hget Hsnap Hfetch Hnf.
  destruct (fetchNodeData_store _ _ _ _ _ Hfetch) as [Hr Hc].
  eexists. split; [by eapply getNodeData_marks_likely_down|].
  split.
  - unfold set_redis. simpl. by rewrite lookup_insert_eq, Hc.
  - intros w' d Hup' Hd. apply getNodeStatus_likely_down; [done|].
    eapply sleep_GET_live.
    + unfold set_redis. simpl. apply lookup_insert_eq.
    + simpl. lia.
Qed.

(** C5.  When [getNodeData] reaches the Directory (the call is forced or the
    key yields nothing, and the identity cache holds no fresh twin id) and
    the Directory lists no node of that id, the node's key is deleted,
    whatever it held, and [ErrNodeNotFound] is returned; the snapshot
    endpoint then answers 404 and the status endpoint "down". *)
Theorem directory_not_found_clears_key w nodeID force s :
  redis_up w = true ->
  force = true \/ redis_GET s (getNodeKey nodeID) = None ->
  cache_lookup s nodeID = None ->
  explorer_twin w nodeID = Reply [] ->
  exists s1,
    getNodeData w nodeID force s = Some (("", Some ErrNodeNotFound), s1)
    /\ redis s1 !! getNodeKey nodeID = None
    /\ (exists s2, getNode w nodeID s1 = Some (writeError StatusNotFound, s2))
    /\ forall w' (d : nat),
         getNodeStatus w' nodeID (sleep d s1) =
           Some (mkResponse StatusOK (Some (BodyStatus "down")), sleep d s1).
Proof.
  intros Hup Hreach Hc Hdir.
  pose proof (fetchNodeData_not_found _ _ _ Hc Hdir) as Hfetch.
  eexists. split; [by eapply getNodeData_not_found|].
  split; [unfold set_redis; simpl; apply lookup_delete_eq|].
  split.
  - eexists. eapply getNode_of_getNodeData with (e := ErrNodeNotFound).
    eapply getNodeData_not_found; [done| |].
    + right. apply redis_GET_delete.
    + by apply fetchNodeData_not_found.
  - intros w' d. apply getNodeStatus_down, sleep_GET_absent.
    unfold set_redis. simpl. apply lookup_delete_eq.
Qed.


(** C1 (amended).  For a node whose key holds a snapshot, a forced fetch
    that fails with an error other than [ErrNodeNotFound] writes the marker
    over the snapshot: the key then yields the marker, not the snapshot, and
    [listNodes] gives the node the status "likely down" and leaves its
    capacity fields as the Directory page delivered them. *)
Theorem failed_probe_overwrites_snapshot w nodeID s value n e s1 :
  redis_up w = true ->
  redis_GET s (getNodeKey nodeID) = Some value ->
  json_Unmarshal value = Reply n ->
  fetchNodeData w nodeID s = Some (Err e, s1) ->
  errors_Is e ErrNodeNotFound = false ->
  exists s2,
    getNodeData w nodeID true s = Some (("", Some ErrLikelyDown), s2)
    /\ redis_GET s2 (getNodeKey nodeID) = Some likelyDown
    /\ redis_GET s2 (getNodeKey nodeID) <> Some value
    /\ forall w' nd, redis_up w' = true -> pretty (NodeID nd) = nodeID ->
         exists nd',
           listNodes_body w' nd s2 = Some (Some nd', s2)
           /\ Status nd' = "likely down"
           /\ TotalResources nd' = TotalResources nd
           /\ UsedResources nd' = UsedResources nd.
Proof.
  intros Hup Hget Hsnap Hfetch Hnf.
  eexists. split; [by eapply getNodeData_marks_likely_down|].
  assert (redis_GET
            (set_redis (fun m => <[getNodeKey nodeID := (likelyDown, (clock s1 + 10 * 60)%N)]> m) s1)
            (getNodeKey nodeID) = Some likelyDown) as Hmark.
  { apply redis_GET_insert. lia. }
  split; [exact Hmark|]. split.
  - rewrite Hmark. intros [= <-]. by apply json_Unmarshal_likely_down in Hsnap.
  - intros w' nd Hup' <-. eexists. split; [by apply listNodes_body_likely_down|].
    done.
Qed.

(** *** The values under the node keys *)

Lemma store_inv_same s s' : redis s' = redis s -> store_inv s -> store_inv s'.
Proof. intros Hr Hinv key value expiry. rewrite Hr. apply Hinv. Qed.

Lemma store_inv_insert s key value expiry :
  node_entry value -> store_inv s ->
  store_inv (set_redis (fun m => <[key := (value, expiry)]> m) s).
Proof.
  intros Hv Hinv k v e. unfold set_redis. simpl.
  rewrite lookup_insert. case_decide.
  - intros [= <- <-]. exact Hv.
  - apply Hinv.
Qed.

Lemma store_inv_delete s key :
  store_inv s -> store_inv (set_redis (fun m => delete key m) s).
Proof.
  intros Hinv k v e. unfold set_redis. simpl.
  rewrite lookup_delete. case_decide; [done | apply Hinv].
Qed.

Lemma SetRedisKey_inv w key value ttl s r s' :
  node_entry value -> store_inv s ->
  SetRedisKey w key value ttl s = Some (r, s') -> store_inv s'.
Proof.
  intros Hv Hinv. unfold SetRedisKey. destruct (redis_up w); go_unfold; intros [= <- <-].
  - by apply store_inv_insert.
  - done.
Qed.

Lemma DeleteRedisKey_inv w key s r s' :
  store_inv s -> DeleteRedisKey w key s = Some (r, s') -> store_inv s'.
Proof.
  intros Hinv. unfold DeleteRedisKey. destruct (redis_up w); go_unfold; intros [= <- <-].
  - by apply store_inv_delete.
  - done.
Qed.

Lemma checkLikelyDown_inv w data nodeID e s r s' :
  store_inv s -> checkLikelyDown w data nodeID e s = Some (r, s') -> store_inv s'.
Proof.
  intros Hinv. unfold checkLikelyDown. destruct (Deserialize data).
  - unfold bind.
    destruct (SetRedisKey w (getNodeKey nodeID) likelyDown (10 * 60) s) as [[r0 s0]|] eqn:Hset;
      [|done].
    go_unfold. intros [= <- <-]. eapply SetRedisKey_inv; [|exact Hinv|exact Hset]. by left.
  - go_unfold. by intros [= <- <-].
Qed.

Lemma getNodeData_inv w nodeID force s r s' :
  store_inv s -> getNodeData w nodeID force s = Some (r, s') -> store_inv s'.
Proof.
  intros Hinv. unfold getNodeData. unfold bind at 1.
  destruct (GetRedisKey_total w (getNodeKey nodeID) s) as [[value e0] ->]. simpl.
  destruct (nonempty value && negb force); [go_unfold; by intros [= <- <-]|].
  unfold bind at 1.
  destruct (fetchNodeData w nodeID s) as [[fetched s1]|] eqn:Hfetch; [|done].
  destruct (fetchNodeData_store _ _ _ _ _ Hfetch) as [Hr _].
  pose proof (store_inv_same _ _ Hr Hinv) as Hinv1.
  destruct fetched as [nodeInfo|err].
  - unfold Serialize. destruct (json_Marshal nodeInfo) as [bytes|msg] eqn:Hm.
    + unfold bind.
      destruct (SetRedisKey w (getNodeKey nodeID) bytes (30 * 60) s1) as [[r0 s0]|] eqn:Hset;
        [|done].
      go_unfold. intros [= <- <-]. eapply SetRedisKey_inv; [|exact Hinv1|exact Hset].
      right. by exists nodeInfo.
    + go_unfold. by intros [= <- <-].
  - destruct (errors_Is err ErrNodeNotFound); [|destruct (nonempty value)].
    + unfold bind.
      destruct (DeleteRedisKey w (getNodeKey nodeID) s1) as [[r0 s0]|] eqn:Hdel; [|done].
      go_unfold. intros [= <- <-]. by eapply DeleteRedisKey_inv.
    + by apply checkLikelyDown_inv.
    + unfold bind.
      destruct (DeleteRedisKey w (getNodeKey nodeID) s1) as [[r0 s0]|] eqn:Hdel; [|done].
      go_unfold. intros [= <- <-]. by eapply DeleteRedisKey_inv.
Qed.

Lemma getNodeCapacity_inv w nodeID force s r s' :
  store_inv s -> getNodeCapacity w nodeID force s = Some (r, s') -> store_inv s'.
Proof.
  intros Hinv. unfold getNodeCapacity. unfold bind.
  destruct (getNodeData w nodeID force s) as [[got s1]|] eqn:Hg; [|done].
  pose proof (getNodeData_inv _ _ _ _ _ _ Hinv Hg).
  repeat case_match; go_unfold; by intros [= <- <-].
Qed.

Lemma listNodes_body_inv w nd s r s' :
  store_inv s -> listNodes_body w nd s = Some (r, s') -> store_inv s'.
Proof.
  intros Hinv. unfold listNodes_body. unfold bind at 1.
  destruct (GetRedisKey_total w (getNodeKey (pretty (NodeID nd))) s) as [[value e0] ->]. simpl.
  match goal with |- context [if ?b then _ else _] => destruct b end;
    [|go_unfold; by intros [= <- <-]].
  unfold bind.
  match goal with |- context [getNodeCapacity ?a ?b ?c ?d] =>
    destruct (getNodeCapacity a b c d) as [[c0 s1]|] eqn:Hc; [|done] end.
  pose proof (getNodeCapacity_inv _ _ _ _ _ _ Hinv Hc).
  destruct c0; go_unfold; by intros [= <- <-].
Qed.

Lemma listNodes_loop_inv w nodes nodeList s r s' :
  store_inv s -> listNodes_loop w nodes nodeList s = Some (r, s') -> store_inv s'.
Proof.
  revert nodeList s. induction nodes as [|nd rest IH]; intros nodeList s Hinv; simpl.
  - go_unfold. by intros [= <- <-].
  - unfold bind.
    destruct (listNodes_body w nd s) as [[r0 s0]|] eqn:Hb; [|done].
    apply IH. by eapply listNodes_body_inv.
Qed.

Lemma listNodes_inv w maxResult pageOffset isSpecificFarm isGateway s r s' :
  store_inv s ->
  listNodes w maxResult pageOffset isSpecificFarm isGateway s = Some (r, s') ->
  store_inv s'.
Proof.
  intros Hinv. unfold listNodes, getAllNodes. go_unfold.
  destruct (explorer_nodes w maxResult pageOffset isSpecificFarm isGateway) as [nodes|msg].
  - match goal with |- context [listNodes_loop w nodes [] ?st] =>
      destruct (listNodes_loop w nodes [] st) as [[l s1]|] eqn:Hl; [|done] end.
    intros [= <- <-]. eapply listNodes_loop_inv; [|exact Hl]. done.
  - by intros [= <- <-].
Qed.

Lemma getNode_inv w nodeID s r s' :
  store_inv s -> getNode w nodeID s = Some (r, s') -> store_inv s'.
Proof.
  intros Hinv. unfold getNode. unfold bind.
  destruct (getNodeData w nodeID false s) as [[got s1]|] eqn:Hg; [|done].
  pose proof (getNodeData_inv _ _ _ _ _ _ Hinv Hg).
  repeat case_match; go_unfold; by intros [= <- <-].
Qed.

Lemma getNodeStatus_inv w nodeID s r s' :
  store_inv s -> getNodeStatus w nodeID s = Some (r, s') -> store_inv s'.
Proof.
  intros Hinv. unfold getNodeStatus. unfold bind.
  destruct (GetRedisKey_total w (getNodeKey nodeID) s) as [[value e0] ->]. simpl.
  repeat case_match; go_unfold; by intros [= <- <-].
Qed.

Lemma cycle_step_inv w ch c c' :
  store_inv (app c) -> cycle_step w ch c = Some c' -> store_inv (app c').
Proof.
  intros Hinv. unfold cycle_step. intros H.
  repeat case_match; simplify_eq; simpl; try done.
  by eapply getNodeData_inv.
Qed.

Lemma cycle_run_inv schedule c c' :
  store_inv (app c) -> cycle_run schedule c = Some c' -> store_inv (app c').
Proof.
  revert c. induction schedule as [|[w ch] rest IH]; intros c Hinv; simpl.
  - by intros [= <-].
  - destruct (cycle_step w ch c) as [c1|] eqn:Hs; [|done].
    apply IH. by eapply cycle_step_inv.
Qed.

Lemma cacheNodesInfo_inv w s c s0 :
  store_inv s -> cacheNodesInfo w s = Some (Some c, s0) -> store_inv (app c).
Proof.
  intros Hinv. unfold cacheNodesInfo, getAllNodesIDs. go_unfold.
  destruct (explorer_nodeIds w); intros [= <- <-]. done.
Qed.

Lemma reachable_store_inv s : reachable s -> store_inv s.
Proof.
  induction 1.
  - intros key value expiry. unfold initState. simpl. by rewrite lookup_empty.
  - by eapply getNodeData_inv.
  - by eapply getNode_inv.
  - by eapply getNodeStatus_inv.
  - by eapply listNodes_inv.
  - eapply cycle_run_inv; [|done]. by eapply cacheNodesInfo_inv.
  - eapply store_inv_same; [|done]. apply sleep_redis.
Qed.

(** C7.  In every state the server reaches, whatever the sequence of
    [getNodeData] calls, handler calls, Fleet Refresher cycles and lapses of
    time, every value stored in Redis is the marker or a serialized
    [NodeInfo]; so a node key yields nothing, or the marker, or one
    serialized snapshot, and nothing else. *)
Theorem node_key_holds_snapshot_marker_or_nothing s :
  reachable s ->
  store_inv s
  /\ forall nodeID,
       redis_GET s (getNodeKey nodeID) = None
       \/ redis_GET s (getNodeKey nodeID) = Some likelyDown
       \/ exists (n : NodeInfo) value,
            json_Marshal n = Reply value
            /\ redis_GET s (getNodeKey nodeID) = Some value.
Proof.
  intros Hreach. pose proof (reachable_store_inv _ Hreach) as Hinv.
  split; [done|]. intros nodeID.
  unfold redis_GET.
  destruct (redis s !! getNodeKey nodeID) as [[value expiry]|] eqn:Hk; [|by left].
  case_bool_decide; [|by left].
  destruct (Hinv _ _ _ Hk) as [-> | [n Hn]]; [right; by left|].
  right; right. by exists n, value.
Qed.

(** *** The semaphore of the Fleet Refresher *)

Lemma cycle_step_cycle_inv w ch c c' :
  cycle_inv c -> cycle_step w ch c = Some c' -> cycle_inv c'.
Proof.
  unfold cycle_inv, cycle_step. intros [Hlen Hcap] Hstep.
  destruct ch as [|i].
  - destruct (main c) as [[|nid rest]|nid rest|] eqn:Hm; simplify_eq; simpl.
    + split; [lia | done].
    + case_decide; simplify_eq; simpl. split; lia.
    + rewrite length_app. simpl. split; lia.
  - destruct (workers c !! i) as [[nid pc]|] eqn:Hw; [|done].
    assert (i < length (workers c)) as Hi by (by eapply lookup_lt_Some).
    destruct pc.
    + destruct (getNodeData w (pretty nid) true (app c)) as [[r a']|]; simplify_eq; simpl.
      rewrite length_insert. done.
    + assert (length (delete i (workers c)) = length (workers c) - 1) as Hdel.
      { apply length_delete. by eexists. }
      case_decide.
      * simplify_eq. simpl. rewrite Hdel. split; lia.
      * lia.
Qed.

Lemma cycle_run_cycle_inv schedule c c' :
  cycle_inv c -> cycle_run schedule c = Some c' -> cycle_inv c'.
Proof.
  revert c. induction schedule as [|[w ch] rest IH]; intros c Hinv; simpl.
  - by intros [= <-].
  - destruct (cycle_step w ch c) as [c1|] eqn:Hs; [|done].
    apply IH. by eapply cycle_step_cycle_inv.
Qed.

Lemma cacheNodesInfo_cycle_inv w s c s0 :
  cacheNodesInfo w s = Some (Some c, s0) -> cycle_inv c.
Proof.
  unfold cacheNodesInfo, getAllNodesIDs. go_unfold.
  destruct (explorer_nodeIds w); intros [= <- <-]. unfold cycle_inv, maxGoRoutnes. simpl. lia.
Qed.

Lemma inflight_le_workers c : inflight c <= length (workers c).
Proof. unfold inflight. apply length_filter. Qed.

(** The send of the main goroutine blocks while the buffer is full. *)
Lemma send_blocks_at_cap w c nid rest :
  main c = AtSend (nid :: rest) ->
  channelLimit c = maxGoRoutnes ->
  cycle_step w RunMain c = None.
Proof.
  intros Hm Hc. unfold cycle_step. rewrite Hm, Hc. case_decide; [lia | done].
Qed.

(** C10.  During a cycle of [cacheNodesInfo], however the goroutines are
    scheduled and however many node ids the Directory lists, at most 30
    workers are inside [getNodeData] at any instant. *)
Theorem refresher_inflight_bounded w s c s0 schedule c' :
  cacheNodesInfo w s = Some (Some c, s0) ->
  cycle_run schedule c = Some c' ->
  inflight c' <= 30.
Proof.
  intros Hstart Hrun.
  pose proof (cacheNodesInfo_cycle_inv _ _ _ _ Hstart) as Hinv.
  destruct (cycle_run_cycle_inv _ _ _ Hinv Hrun) as [Hlen Hcap].
  pose proof (inflight_le_workers c'). unfold maxGoRoutnes in Hcap. lia.
Qed.

(** *** The identity cache and its janitor *)


Lemma tick_lru_lookup s k it :
  lruCache (tick s) !! k = Some it -> lruCache s !! k = Some it.
Proof.
  unfold tick. case_bool_decide; simpl; [|done].
  intros Hf. by apply map_lookup_filter_Some in Hf as [? _].
Qed.

Lemma sleep_lru_lookup d s k it :
  lruCache (sleep d s) !! k = Some it -> lruCache s !! k = Some it.
Proof.
  revert s. induction d as [|d IH]; intros s; simpl; [done|].
  intros H. by apply tick_lru_lookup, IH.
Qed.

Lemma sleep_lru_absent d s k :
  lruCache s !! k = None -> lruCache (sleep d s) !! k = None.
Proof.
  intros Hk. destruct (lruCache (sleep d s) !! k) as [it|] eqn:H; [|done].
  apply sleep_lru_lookup in H. congruence.
Qed.

(** The janitor's run at instant [clock s + 1] removes what has expired. *)
Lemma tick_purges s k :
  ((clock s + 1) mod lru_cleanupInterval = 0)%N ->
  (forall it, lruCache s !! k = Some it -> item_expired (clock s + 1) it = true) ->
  lruCache (tick s) !! k = None.
Proof.
  intros Hmod Hexp. unfold tick. simpl. rewrite bool_decide_eq_true_2 by done.
  unfold cache_DeleteExpired. simpl.
  apply map_lookup_filter_None. destruct (lruCache s !! k) as [it|] eqn:Hk; [|by left].
  right. intros it' Hit'. simpl. simplify_eq. rewrite (Hexp _ eq_refl). done.
Qed.

(** An item that has expired by a run of the janitor during the sleep is
    gone after it. *)
Lemma sleep_purges d s k (T : N) :
  (clock s < T)%N -> (T <= clock s + N.of_nat d)%N ->
  (T mod lru_cleanupInterval = 0)%N ->
  (forall it, lruCache s !! k = Some it -> item_expired T it = true) ->
  lruCache (sleep d s) !! k = None.
Proof.
  revert s. induction d as [|d IH]; intros s Hlo Hhi Hmod Hexp; [lia|].
  simpl. destruct (decide (T = clock s + 1)%N) as [->|Hne].
  - apply sleep_lru_absent. by apply tick_purges.
  - apply IH; try done.
    + rewrite tick_clock. lia.
    + rewrite tick_clock. lia.
    + intros it Hit. apply Hexp. by apply tick_lru_lookup.
Qed.

(** The first run of the janitor after instant [e] comes within one
    cleanup interval. *)
Lemma next_cleanup (e : N) :
  exists T : N, (e < T)%N /\ (T <= e + lru_cleanupInterval)%N
                /\ (T mod lru_cleanupInterval = 0)%N.
Proof.
  unfold lru_cleanupInterval. change (3 * 60)%N with 180%N.
  exists ((e / 180 + 1) * 180)%N.
  pose proof (N.div_mod e 180%N ltac:(done)) as Hdm.
  pose proof (N.mod_lt e 180%N ltac:(done)) as Hlt.
  split; [|split; [|apply N.Div0.mod_mul]];
    revert Hdm Hlt; generalize (e / 180)%N (e mod 180)%N; intros q r Hdm Hlt; lia.
Qed.

(** [getNodeTwinID] on a miss of the identity cache. *)
Lemma getNodeTwinID_resolve w nodeID s twin rest :
  cache_lookup s nodeID = None ->
  explorer_twin w nodeID = Reply (twin :: rest) ->
  getNodeTwinID w nodeID s =
    Some (Ok twin,
          set_lruCache
            (fun m => <[nodeID := mkItem (VUint32 twin) (clock s + Z.to_N lru_defaultExpiration)%N]> m)
            (mkState (redis s) (lruCache s) (clock s) (QueryTwin nodeID :: calls s))).
Proof.
  intros Hc Hdir. unfold getNodeTwinID, query_twin, cache_Get, cache_Set.
  go_unfold. by rewrite Hc, Hdir.
Qed.

Lemma getNodeTwinID_miss_queries w nodeID s :
  cache_lookup s nodeID = None ->
  exists r s', getNodeTwinID w nodeID s = Some (r, s')
               /\ calls s' = QueryTwin nodeID :: calls s.
Proof.
  intros Hc. unfold getNodeTwinID, query_twin, cache_Get, cache_Set.
  go_unfold. rewrite Hc.
  destruct (explorer_twin w nodeID) as [[|twin rest]|msg]; eauto.
Qed.

(** An item is served only up to its expiration. *)
Lemma cache_lookup_served s k v it :
  lruCache s !! k = Some it -> (0 < Expiration it)%N ->
  cache_lookup s k = Some v -> (clock s <= Expiration it)%N.
Proof.
  intros Hk Hpos. unfold cache_lookup, item_expired. rewrite Hk.
  rewrite bool_decide_eq_true_2 by done. simpl. case_bool_decide; [done | lia].
Qed.

(** The twin id placed by [getNodeTwinID] at instant [t] is served for the
    two minutes of the default expiration and removed by the janitor within
    three more. *)
Lemma twin_entry_lifetime s nodeID twin (d : nat) :
  let s1 := set_lruCache
              (fun m => <[nodeID := mkItem (VUint32 twin) (clock s + Z.to_N lru_defaultExpiration)%N]> m)
              (mkState (redis s) (lruCache s) (clock s) (QueryTwin nodeID :: calls s)) in
  (d <= 2 * 60 -> cache_lookup (sleep d s1) nodeID = Some (VUint32 twin))
  /\ (2 * 60 < d -> cache_lookup (sleep d s1) nodeID = None)
  /\ (2 * 60 + 3 * 60 <= d -> lruCache (sleep d s1) !! nodeID = None).
Proof.
  intros s1.
  assert (lruCache s1 !! nodeID = Some (mkItem (VUint32 twin) (clock s + 120)%N)) as H1.
  { unfold s1, set_lruCache. simpl. apply lookup_insert_eq. }
  assert (clock s1 = clock s) as Hc1 by done.
  split; [|split].
  - intros Hd.
    assert (forall (n : nat) (t : State),
              (clock t + N.of_nat n <= clock s + 120)%N ->
              lruCache t !! nodeID = Some (mkItem (VUint32 twin) (clock s + 120)%N) ->
              cache_lookup (sleep n t) nodeID = Some (VUint32 twin)) as Hserve.
    { clear. intros n. induction n as [|n IH]; intros t Hle Hk.
      - simpl. unfold cache_lookup, item_expired. rewrite Hk. simpl.
        rewrite (bool_decide_eq_false_2 (clock s + 120 < clock t)%N) by lia.
        by rewrite andb_false_r.
      - simpl. apply IH; [rewrite tick_clock; lia |].
        unfold tick. case_bool_decide; simpl; [|done].
        apply map_lookup_filter_Some. split; [done|]. simpl.
        unfold item_expired. simpl.
        rewrite (bool_decide_eq_false_2 (clock s + 120 < clock t + 1)%N) by lia.
        by rewrite andb_false_r. }
    apply Hserve; [rewrite Hc1; lia | done].
  - intros Hd. unfold cache_lookup.
    destruct (lruCache (sleep d s1) !! nodeID) as [it|] eqn:Hk; [|done].
    apply sleep_lru_lookup in Hk. rewrite H1 in Hk. simplify_eq.
    unfold item_expired. simpl. rewrite sleep_clock, Hc1.
    rewrite !bool_decide_eq_true_2 by lia. done.
  - intros Hd.
    destruct (next_cleanup (clock s + 120)%N) as (T & Hlo & Hhi & Hmod).
    unfold lru_cleanupInterval in Hhi.
    eapply (sleep_purges d s1 nodeID T); [lia | lia | done |].
    intros it Hit. rewrite H1 in Hit. simplify_eq.
    unfold item_expired. simpl. rewrite !bool_decide_eq_true_2 by lia. done.
Qed.

(** C8.  A twin id that [getNodeTwinID] resolves from the Directory and
    places in the identity cache is served from the cache for at most ten
    minutes and is gone from it fifteen minutes after its creation at the
    latest; once it is older than ten minutes, [getNodeTwinID] queries the
    Directory again. *)
Theorem twin_entry_freshness_window w nodeID s twin rest :
  cache_lookup s nodeID = None ->
  explorer_twin w nodeID = Reply (twin :: rest) ->
  exists s1,
    getNodeTwinID w nodeID s = Some (Ok twin, s1)
    /\ cache_lookup s1 nodeID = Some (VUint32 twin)
    /\ (forall (d : nat) v, cache_lookup (sleep d s1) nodeID = Some v -> d <= 10 * 60)
    /\ (forall d : nat, 15 * 60 <= d -> lruCache (sleep d s1) !! nodeID = None)
    /\ (forall (d : nat) w', 10 * 60 < d ->
          exists r s2, getNodeTwinID w' nodeID (sleep d s1) = Some (r, s2)
                       /\ calls s2 = QueryTwin nodeID :: calls (sleep d s1)).
Proof.
  intros Hc Hdir. eexists. split; [exact (getNodeTwinID_resolve _ _ _ _ _ Hc Hdir)|].
  split; [|split; [|split]].
  - apply (twin_entry_lifetime s nodeID twin 0). lia.
  - intros d v Hv. destruct (decide (d <= 10 * 60)) as [|Hgt]; [done|].
    destruct (twin_entry_lifetime s nodeID twin d) as (_ & Hexp & _).
    rewrite Hexp in Hv by lia. done.
  - intros d Hd. apply (twin_entry_lifetime s nodeID twin d). lia.
  - intros d w' Hd. apply getNodeTwinID_miss_queries.
    apply (twin_entry_lifetime s nodeID twin d). lia.
Qed.

(** *** Running the fetch pipeline again *)



Lemma cache_lookup_set_eq s k v (e : N) :
  item_expired (clock s) (mkItem v e) = false ->
  cache_lookup (set_lruCache (fun m => <[k := mkItem v e]> m) s) k = Some v.
Proof.
  intros He. unfold cache_lookup, set_lruCache. simpl. rewrite lookup_insert_eq.
  by rewrite He.
Qed.

Lemma cache_lookup_set_ne s k k' v (e : N) :
  k' <> k ->
  cache_lookup (set_lruCache (fun m => <[k := mkItem v e]> m) s) k' = cache_lookup s k'.
Proof.
  intros Hne. unfold cache_lookup, set_lruCache. simpl. by rewrite lookup_insert_ne.
Qed.



(** The keys of one node in the identity cache are distinct. *)
Lemma string_length_app (a b : string) :
  String.length (a +:+ b) = String.length a + String.length b.
Proof. induction a as [|ch a IH]; simpl; [done|]. by rewrite IH. Qed.

Lemma hypervisorKey_ne nodeID : nodeID <> hypervisorKey nodeID.
Proof.
  intros H. apply (f_equal String.length) in H. unfold hypervisorKey in H.
  rewrite !string_length_app in H. simpl in H. lia.
Qed.

Lemma dmiKey_ne nodeID : nodeID <> dmiKey nodeID.
Proof.
  intros H. apply (f_equal String.length) in H. unfold dmiKey in H.
  rewrite !string_length_app in H. simpl in H. lia.
Qed.

Lemma hypervisorKey_dmiKey_ne nodeID : hypervisorKey nodeID <> dmiKey nodeID.
Proof.
  unfold hypervisorKey, dmiKey. intros H.
  apply (String.app_inj "node_"), (String.app_inj nodeID) in H. done.
Qed.

Lemma getNodeTwinID_eq w nodeID s :
  getNodeTwinID w nodeID s =
    match cache_lookup s nodeID with
    | Some (VUint32 twinID) => Some (Ok twinID, s)
    | Some _ => None
    | None =>
        match explorer_twin w nodeID with
        | Failure msg =>
            Some (Err (Errorf_w "failed to query node" (External msg)),
                  recorded (QueryTwin nodeID) s)
        | Reply [] => Some (Err ErrNodeNotFound, recorded (QueryTwin nodeID) s)
        | Reply (twinID :: _) =>
            Some (Ok twinID,
                  set_lruCache
                    (fun m => <[nodeID := mkItem (VUint32 twinID)
                                            (clock s + Z.to_N lru_defaultExpiration)%N]> m)
                    (recorded (QueryTwin nodeID) s))
        end
    end.
Proof.
  unfold getNodeTwinID, query_twin, cache_Get, cache_Set. go_unfold.
  by repeat case_match.
Qed.

Lemma getNodeHypervisor_eq w nodeID twin s :
  getNodeHypervisor w nodeID twin s =
    match cache_lookup s (hypervisorKey nodeID) with
    | Some (VString h) => Some (Ok h, s)
    | Some _ => None
    | None =>
        match rmb_SystemHypervisor w twin with
        | Failure msg => Some (Err (External msg), recorded (SystemHypervisor twin) s)
        | Reply h =>
            Some (Ok h,
                  set_lruCache
                    (fun m => <[hypervisorKey nodeID := mkItem (VString h) 0%N]> m)
                    (recorded (SystemHypervisor twin) s))
        end
    end.
Proof.
  unfold getNodeHypervisor, cache_Get, cache_Set. go_unfold.
  by repeat case_match.
Qed.

Lemma getNodeDMI_eq w nodeID twin s :
  getNodeDMI w nodeID twin s =
    match cache_lookup s (dmiKey nodeID) with
    | Some (VDMI d) => Some (Ok d, s)
    | Some _ => None
    | None =>
        match rmb_SystemDMI w twin with
        | Failure msg => Some (Err (External msg), recorded (SystemDMI twin) s)
        | Reply d =>
            Some (Ok d,
                  set_lruCache
                    (fun m => <[dmiKey nodeID := mkItem (VDMI d) 0%N]> m)
                    (recorded (SystemDMI twin) s))
        end
    end.
Proof.
  unfold getNodeDMI, cache_Get, cache_Set. go_unfold.
  by repeat case_match.
Qed.

Lemma cache_lookup_recorded (rq : call) s k :
  cache_lookup (recorded rq s) k = cache_lookup s k.
Proof. reflexivity. Qed.




Lemma getNodeTwinID_frame w nodeID s r s1 k :
  getNodeTwinID w nodeID s = Some (r, s1) ->
  k <> nodeID -> cache_lookup s1 k = cache_lookup s k.
Proof.
  rewrite getNodeTwinID_eq. intros H Hne.
  repeat case_match; simplify_eq; try done.
  by rewrite cache_lookup_set_ne.
Qed.




Lemma getNodeDMI_frame w nodeID twin s r s1 k :
  getNodeDMI w nodeID twin s = Some (r, s1) ->
  k <> dmiKey nodeID -> cache_lookup s1 k = cache_lookup s k.
Proof.
  rewrite getNodeDMI_eq. intros H Hne.
  repeat case_match; simplify_eq; try done.
  by rewrite cache_lookup_set_ne.
Qed.


Lemma fetchNodeData_eq w nodeID s :
  fetchNodeData w nodeID s =
    match getNodeTwinID w nodeID s with
    | None => None
    | Some (Err err, sa) => Some (Err err, sa)
    | Some (Ok twinID, sa) =>
        match rmb_Counters w twinID with
        | Failure msg =>
            Some (Err (Wrapf (External msg) "error fetching node statistics"),
                  recorded (Counters twinID) sa)
        | Reply (total, used) =>
            let sb := recorded (SystemVersion twinID) (recorded (Counters twinID) sa) in
            match rmb_SystemVersion w twinID with
            | Failure msg =>
                Some (Err (Wrapf (External msg) "error fetching node version"), sb)
            | Reply version =>
                match getNodeHypervisor w nodeID twinID sb with
                | None => None
                | Some (Err err, sc) => Some (Err (Wrapf err "error fetching hypervisor"), sc)
                | Some (Ok hypervisor, sc) =>
                    match getNodeDMI w nodeID twinID sc with
                    | None => None
                    | Some (Err err, sd) => Some (Err (Wrapf err "error fetching node dmi"), sd)
                    | Some (Ok dmiData, sd) =>
                        Some (Ok (mkNodeInfo (mkCapacityResult total used) dmiData
                                             hypervisor version), sd)
                    end
                end
            end
        end
    end.
Proof.
  unfold fetchNodeData. unfold bind, ret, record, modify, recorded.
  repeat case_match; simplify_eq; done.
Qed.


(** *** Calling [getNodeData] twice *)

Lemma getNodeData_eq w nodeID force s :
  getNodeData w nodeID force s =
    match GetRedisKey w (getNodeKey nodeID) s with
    | None => None
    | Some (got, s0) =>
        if nonempty got.1 && negb force then Some ((got.1, None), s0)
        else match fetchNodeData w nodeID s0 with
             | None => None
             | Some (fetched, sf) => afterFetch w nodeID got.1 fetched sf
             end
    end.
Proof.
  unfold getNodeData, afterFetch. unfold bind at 1.
  destruct (GetRedisKey w (getNodeKey nodeID) s) as [[got s0]|]; [|done].
  destruct (nonempty got.1 && negb force); [done|].
  unfold bind at 1. by destruct (fetchNodeData w nodeID s0) as [[[n|e] sf]|].
Qed.


Lemma GetRedisKey_down w key s :
  redis_up w = false -> GetRedisKey w key s = Some (("", Some redis_conn_error), s).
Proof. intros Hup. unfold GetRedisKey. by rewrite Hup. Qed.





(** The non-forced call never returns [ErrLikelyDown]: [checkLikelyDown]
    runs only over a value read from Redis, and with such a value the
    non-forced call has already returned. *)
Lemma getNodeData_unforced_not_likely_down w nodeID s value e s1 :
  getNodeData w nodeID false s = Some ((value, Some e), s1) -> e <> ErrLikelyDown.
Proof.
  rewrite getNodeData_eq.
  destruct (GetRedisKey_total w (getNodeKey nodeID) s) as [[v0 e0] ->]. simpl.
  rewrite andb_true_r. destruct (nonempty v0) eqn:Hv; [by intros [= <-]|].
  destruct (fetchNodeData w nodeID s) as [[fetched sf]|]; [|done].
  unfold afterFetch, Serialize, DeleteRedisKey, SetRedisKey. rewrite Hv. go_unfold.
  intros H. repeat case_match; simplify_eq; done.
Qed.

(** A forced fetch that fails over the marker does not renew it: the marker
    is not a JSON document, [checkLikelyDown] returns the decoding error and
    the store is left as it was, so the marker runs out ten minutes after it
    was written. *)
Lemma getNodeData_marker_not_renewed w nodeID s e s1 :
  redis_up w = true ->
  redis_GET s (getNodeKey nodeID) = Some likelyDown ->
  fetchNodeData w nodeID s = Some (Err e, s1) ->
  errors_Is e ErrNodeNotFound = false ->
  exists err,
    getNodeData w nodeID true s = Some (("", Some err), s1)
    /\ errors_Is err ErrBadGateway = false
    /\ redis s1 = redis s.
Proof.
  intros Hup Hget Hfetch Hnf. rewrite getNodeData_eq.
  rewrite (GetRedisKey_hit _ _ _ _ Hup Hget). simpl. rewrite Hfetch.
  unfold afterFetch. rewrite Hnf. simpl.
  unfold checkLikelyDown, Deserialize.
  destruct (json_Unmarshal likelyDown) as [n|msg] eqn:Hm.
  - by apply json_Unmarshal_likely_down in Hm.
  - eexists. split; [reflexivity|]. split; [reflexivity|].
    by destruct (fetchNodeData_store _ _ _ _ _ Hfetch).
Qed.

(** A payload returned without error is served from Redis afterwards,
    whatever the Directory and the node would answer by then. *)
Lemma getNodeData_served_again w w' nodeID s value s1 :
  redis_up w = true -> redis_up w' = true ->
  getNodeData w nodeID false s = Some ((value, None), s1) ->
  getNodeData w' nodeID false s1 = Some ((value, None), s1).
Proof.
  intros Hup Hup'. rewrite getNodeData_eq.
  destruct (redis_GET s (getNodeKey nodeID)) as [v0|] eqn:Hget.
  - rewrite (GetRedisKey_hit _ _ _ _ Hup Hget). simpl. rewrite andb_true_r.
    destruct (nonempty v0) eqn:Hv.
    + intros [= <- <-]. apply getNodeData_cached; [done | done |].
      intros ->. by rewrite nonempty_empty in Hv.
    + destruct (fetchNodeData w nodeID s) as [[fetched sf]|]; [|done].
      unfold afterFetch, Serialize, DeleteRedisKey, SetRedisKey. rewrite Hv, Hup. go_unfold.
      destruct fetched as [n|e]; [|repeat case_match; done].
      destruct (json_Marshal n) as [bytes|msg] eqn:Hm; [|done].
      intros [= <- <-]. apply getNodeData_cached; [done | |].
      * apply redis_GET_insert. lia.
      * by eapply json_Marshal_nonempty.
  - rewrite (GetRedisKey_miss _ _ _ Hup Hget). simpl.
    destruct (fetchNodeData w nodeID s) as [[fetched sf]|]; [|done].
    unfold afterFetch, Serialize, DeleteRedisKey, SetRedisKey. rewrite Hup. go_unfold.
    destruct fetched as [n|e]; [|repeat case_match; done].
    destruct (json_Marshal n) as [bytes|msg] eqn:Hm; [|done].
    intros [= <- <-]. apply getNodeData_cached; [done | |].
    + apply redis_GET_insert. lia.
    + by eapply json_Marshal_nonempty.
Qed.


End Proofs.

(** ** The claims at concrete inputs *)

(** C2.  The key of node 42 holds the marker, unexpired; the non-forced
    [getNodeData] returns the marker itself with a nil error, and the
    snapshot endpoint answers 200 with the marker as its body, where the
    claim has a BadGateway error and 502. *)
Theorem getNode_marker_answers_200 :
  redis_GET exMarked (getNodeKey "42") = Some likelyDown
  /\ getNodeData worldUp "42" false exMarked = Some ((likelyDown, None), exMarked)
  /\ getNode worldUp "42" exMarked
     = Some (mkResponse StatusOK (Some (BodyRaw likelyDown)), exMarked).
Proof.
  assert (redis_GET exMarked (getNodeKey "42") = Some likelyDown) as Hget
    by (vm_compute; reflexivity).
  split; [exact Hget|]. split.
  - by apply getNodeData_cached.
  - by apply getNode_cached.
Qed.

(** What [listNodes] shows for node 42 once the marker is in place: the
    status "likely down" and the capacity fields of the Directory page. *)
Example listNodes_marked_node :
  fst <$> listNodes worldDown 50 0 "" "" exMarked
  = Some (mkResponse StatusOK
            (Some (BodyNodes
               [mkNode 42 1 7 "BE" "Ghent" zeroCapacity zeroCapacity
                       (mkLocation "BE" "Ghent") "likely down"]))).
Proof. vm_compute. reflexivity. Qed.

(** C1, as stated, fails for node 42: its key holds the snapshot with four
    cores, the forced fetch times out, and afterwards the key yields the
    marker instead of the snapshot. *)
Lemma snapshot_lost_after_failed_probe :
  ~ snapshot_survives_failed_probe worldDown exCached exNode.
Proof.
  intros H. unfold snapshot_survives_failed_probe in H.
  destruct (H exValue exSnapshot exTimeout
              (recorded (Counters 7)
                 (set_lruCache (fun m => <["42" := mkItem (VUint32 7) 120%N]> m)
                    (recorded (QueryTwin "42") exCached))))
    as (r & s2 & Hrun & Hget & _).
  - vm_compute. reflexivity.
  - vm_compute. reflexivity.
  - vm_compute. reflexivity.
  - vm_compute in Hrun. injection Hrun as <- <-.
    vm_compute in Hget. discriminate.
Qed.

(** The amended C1 at node 42: cached as up, then the node times out. *)
Lemma failed_probe_overwrites_snapshot_witness :
  exists s2,
    getNodeData worldDown "42" true exCached = Some (("", Some ErrLikelyDown), s2)
    /\ redis_GET s2 (getNodeKey "42") = Some likelyDown
    /\ redis_GET s2 (getNodeKey "42") <> Some exValue
    /\ forall w' nd, redis_up w' = true -> pretty (NodeID nd) = "42" ->
         exists nd',
           listNodes_body w' nd s2 = Some (Some nd', s2)
           /\ Status nd' = "likely down"
           /\ TotalResources nd' = TotalResources nd
           /\ UsedResources nd' = UsedResources nd.
Proof.
  apply (failed_probe_overwrites_snapshot worldDown "42" exCached exValue exSnapshot exTimeout
           (recorded (Counters 7)
              (set_lruCache (fun m => <["42" := mkItem (VUint32 7) 120%N]> m)
                 (recorded (QueryTwin "42") exCached))));
    vm_compute; reflexivity.
Defined.

(** C3 at node 42, cached as up, while the node itself is unreachable. *)
Lemma getNodeData_live_entry_no_probe_witness :
  exists s',
    getNodeData worldDown "42" false exCached = Some ((exValue, None), s')
    /\ s' = exCached
    /\ probeCalls s' = probeCalls exCached
    /\ twinQueries s' = twinQueries exCached.
Proof.
  apply (getNodeData_live_entry_no_probe worldDown "42" exCached exValue).
  - reflexivity.
  - vm_compute. reflexivity.
  - discriminate.
Defined.

(** C4 at node 42: cached as up, then the node times out. *)
Lemma failed_probe_writes_likely_down_marker_witness :
  exists s2,
    getNodeData worldDown "42" true exCached = Some (("", Some ErrLikelyDown), s2)
    /\ redis s2 !! getNodeKey "42" = Some (likelyDown, (clock exCached + 10 * 60)%N)
    /\ forall w' (d : nat), redis_up w' = true -> d < 10 * 60 ->
         getNodeStatus w' "42" (sleep d s2) =
           Some (mkResponse StatusOK (Some (BodyStatus "likely down")), sleep d s2).
Proof.
  apply (failed_probe_writes_likely_down_marker worldDown "42" exCached exValue exSnapshot
           exTimeout
           (recorded (Counters 7)
              (set_lruCache (fun m => <["42" := mkItem (VUint32 7) 120%N]> m)
                 (recorded (QueryTwin "42") exCached))));
    vm_compute; reflexivity.
Defined.

(** C5 at node 42: cached as up, then gone from the Directory. *)
Lemma directory_not_found_clears_key_witness :
  exists s1,
    getNodeData worldGone "42" true exCached = Some (("", Some ErrNodeNotFound), s1)
    /\ redis s1 !! getNodeKey "42" = None
    /\ (exists s2, getNode worldGone "42" s1 = Some (writeError StatusNotFound, s2))
    /\ forall w' (d : nat),
         getNodeStatus w' "42" (sleep d s1) =
           Some (mkResponse StatusOK (Some (BodyStatus "down")), sleep d s1).
Proof.
  apply (directory_not_found_clears_key worldGone "42" true exCached).
  - reflexivity.
  - left. reflexivity.
  - vm_compute. reflexivity.
  - reflexivity.
Defined.


(** C7 at the state reached by one forced fetch of node 42. *)
Lemma node_key_holds_snapshot_marker_or_nothing_witness :
  store_inv exRefreshed
  /\ forall nodeID,
       redis_GET exRefreshed (getNodeKey nodeID) = None
       \/ redis_GET exRefreshed (getNodeKey nodeID) = Some likelyDown
       \/ exists (n : NodeInfo unit) value,
            json_Marshal n = Reply value
            /\ redis_GET exRefreshed (getNodeKey nodeID) = Some value.
Proof.
  apply (node_key_holds_snapshot_marker_or_nothing exRefreshed).
  apply (reach_getNodeData worldUp "42" true initState (exValue, None) exRefreshed).
  - apply reach_init.
  - vm_compute. reflexivity.
Defined.

(** C8 at node 42, whose twin id the Directory gives as 7. *)
Lemma twin_entry_freshness_window_witness :
  exists s1,
    getNodeTwinID worldUp "42" initState = Some (Ok 7%N, s1)
    /\ cache_lookup s1 "42" = Some (VUint32 7)
    /\ (forall (d : nat) v, cache_lookup (sleep d s1) "42" = Some v -> d <= 10 * 60)
    /\ (forall d : nat, 15 * 60 <= d -> lruCache (sleep d s1) !! "42" = None)
    /\ (forall (d : nat) w', 10 * 60 < d ->
          exists r s2, getNodeTwinID w' "42" (sleep d s1) = Some (r, s2)
                       /\ calls s2 = QueryTwin "42" :: calls (sleep d s1)).
Proof.
  apply (twin_entry_freshness_window worldUp "42" initState 7%N []).
  - vm_compute. reflexivity.
  - reflexivity.
Defined.


(** C10 on a cycle over three nodes, two workers started, one done. *)
Lemma refresher_inflight_bounded_witness :
  exists c',
    cycle_run exSchedule exCycle = Some c'
    /\ inflight c' = 1
    /\ inflight c' <= 30.
Proof.
  eexists. split; [vm_compute; reflexivity|]. split; [vm_compute; reflexivity|].
  apply (refresher_inflight_bounded worldUp initState exCycle
           (recorded QueryNodeIds initState) exSchedule).
  - vm_compute. reflexivity.
  - vm_compute. reflexivity.
Defined.

(** * Further properties of the code *)

Section Further.

Context {dmi_DMI : Type} {J : JSON dmi_DMI}.

Local Abbreviation State := (State dmi_DMI).
Local Abbreviation World := (World dmi_DMI).
Local Abbreviation NodeInfo := (NodeInfo dmi_DMI).
Local Abbreviation Cycle := (Cycle dmi_DMI).

Implicit Types (s : State) (w : World) (nodeID key : string) (c : Cycle).

Ltac monad_unfold :=
  unfold bind, ret, gets, modify, record, panic in *; simpl in *.

(** *** A successful fetch *)

Lemma getNodeStatus_up w nodeID s value :
  redis_up w = true ->
  redis_GET s (getNodeKey nodeID) = Some value ->
  value <> "" -> value <> likelyDown ->
  getNodeStatus w nodeID s = Some (mkResponse StatusOK (Some (BodyStatus "up")), s).
Proof.
  intros Hup Hget Hne Hnm. unfold getNodeStatus. unfold bind at 1.
  rewrite (GetRedisKey_hit _ _ _ _ Hup Hget). simpl.
  assert (String.eqb value likelyDown = false) as -> by by apply String.eqb_neq.
  unfold storedUp. rewrite (nonempty_true _ Hne).
  assert (String.eqb value likelyDown = false) as -> by by apply String.eqb_neq.
  done.
Qed.

Lemma sleep_GET_expired d s key value expiry :
  redis s !! key = Some (value, expiry) ->
  (expiry <= clock s + N.of_nat d)%N ->
  redis_GET (sleep d s) key = None.
Proof.
  intros Hk Hle. unfold redis_GET. rewrite sleep_redis, sleep_clock, Hk.
  by rewrite bool_decide_eq_false_2 by lia.
Qed.

(** A fetch that succeeds, in a forced call or over an empty key, stores
    the serialized snapshot for thirty minutes under the node's key, over
    whatever the key held, and returns it. *)
Lemma getNodeData_stores_snapshot w nodeID force s n s1 bytes :
  redis_up w = true ->
  force = true \/ redis_GET s (getNodeKey nodeID) = None ->
  fetchNodeData w nodeID s = Some (Ok n, s1) ->
  json_Marshal n = Reply bytes ->
  getNodeData w nodeID force s =
    Some ((bytes, None),
          set_redis (fun m => <[getNodeKey nodeID := (bytes, (clock s1 + 30 * 60)%N)]> m) s1).
Proof.
  intros Hup Hreach Hfetch Hm. rewrite getNodeData_eq.
  destruct (GetRedisKey_total w (getNodeKey nodeID) s) as [[value e0] Hg]. rewrite Hg. simpl.
  assert (nonempty value && negb force = false) as ->.
  { destruct Hreach as [-> | Hnone]; [by rewrite andb_false_r|].
    rewrite (GetRedisKey_miss _ _ _ Hup Hnone) in Hg. by simplify_eq. }
  rewrite Hfetch. unfold afterFetch, Serialize, SetRedisKey. rewrite Hm, Hup. reflexivity.
Qed.

(** X1.  When a fetch succeeds in a forced call or over an empty key (Redis
    reachable, the serialized snapshot not being the marker text), the
    snapshot is returned; for the next thirty minutes the status endpoint
    answers "up" and the snapshot endpoint answers 200 with that very
    payload, whatever the environment then is; once thirty minutes have
    passed without another write the status endpoint answers "down". *)
Theorem fetched_snapshot_served_for_thirty_minutes w nodeID force s n s1 bytes :
  redis_up w = true ->
  force = true \/ redis_GET s (getNodeKey nodeID) = None ->
  fetchNodeData w nodeID s = Some (Ok n, s1) ->
  json_Marshal n = Reply bytes ->
  bytes <> likelyDown ->
  exists s2,
    getNodeData w nodeID force s = Some ((bytes, None), s2)
    /\ (forall w' (d : nat), redis_up w' = true -> d < 30 * 60 ->
         getNodeStatus w' nodeID (sleep d s2)
           = Some (mkResponse StatusOK (Some (BodyStatus "up")), sleep d s2)
         /\ getNode w' nodeID (sleep d s2)
           = Some (mkResponse StatusOK (Some (BodyRaw bytes)), sleep d s2))
    /\ (forall w' (d : nat), 30 * 60 <= d ->
         getNodeStatus w' nodeID (sleep d s2)
           = Some (mkResponse StatusOK (Some (BodyStatus "down")), sleep d s2)).
Proof.
  intros Hup Hreach Hfetch Hm Hnm.
  pose proof (json_Marshal_nonempty _ _ Hm) as Hne.
  destruct (fetchNodeData_store _ _ _ _ _ Hfetch) as [Hr Hc].
  eexists. split; [by eapply getNodeData_stores_snapshot|].
  split.
  - intros w' d Hup' Hd.
    assert (redis_GET
              (sleep d (set_redis
                 (fun m => <[getNodeKey nodeID := (bytes, (clock s1 + 30 * 60)%N)]> m) s1))
              (getNodeKey nodeID) = Some bytes) as Hget.
    { eapply sleep_GET_live; [unfold set_redis; simpl; apply lookup_insert_eq | simpl; lia]. }
    split; [by apply (getNodeStatus_up _ _ _ bytes) | by apply getNode_cached].
  - intros w' d Hd. apply getNodeStatus_down.
    eapply sleep_GET_expired; [unfold set_redis; simpl; apply lookup_insert_eq | simpl; lia].
Qed.

(** *** The marker runs out *)

Lemma unreachable_run_marker nodeID s s' (e : N) :
  redis s !! getNodeKey nodeID = Some (likelyDown, e) ->
  unreachable_run nodeID s s' ->
  redis s' !! getNodeKey nodeID = Some (likelyDown, e)
  \/ (redis s' !! getNodeKey nodeID = None /\ (e <= clock s')%N).
Proof.
  intros Hk Hrun. induction Hrun as [s|d s s' Hrun IH|w s s' err s1 r s2 Hrun IH Hup Hf Hnf Hg].
  - by left.
  - destruct (IH Hk) as [Hm | [Hn Hle]].
    + left. by rewrite sleep_redis.
    + right. rewrite sleep_redis, sleep_clock. split; [done | lia].
  - destruct (fetchNodeData_store _ _ _ _ _ Hf) as [Hr Hc].
    assert (redis_GET s' (getNodeKey nodeID) = None ->
            redis s2 !! getNodeKey nodeID = None /\ clock s2 = clock s') as Hmiss.
    { intros Hnone. rewrite (getNodeData_bad_gateway _ _ _ _ _ _ Hup Hnone Hf Hnf) in Hg.
      simplify_eq. unfold set_redis. simpl. by rewrite lookup_delete_eq. }
    destruct (IH Hk) as [Hm | [Hn Hle]].
    + destruct (decide (clock s' < e)%N) as [Hlt | Hge].
      * left.
        assert (redis_GET s' (getNodeKey nodeID) = Some likelyDown) as Hget.
        { unfold redis_GET. rewrite Hm. by rewrite bool_decide_eq_true_2. }
        destruct (getNodeData_marker_not_renewed _ _ _ _ _ Hup Hget Hf Hnf)
          as (err' & Hg' & _ & Hr').
        rewrite Hg' in Hg. simplify_eq. by rewrite Hr'.
      * right.
        destruct Hmiss as [Hn2 Hc2].
        { unfold redis_GET. rewrite Hm. by rewrite bool_decide_eq_false_2. }
        split; [done | lia].
    + right. destruct Hmiss as [Hn2 Hc2].
      { unfold redis_GET. by rewrite Hn. }
      split; [done | lia].
Qed.

(** X2.  Once the marker is under a node's key, forced fetches that keep
    failing (with an error other than [ErrNodeNotFound]) do not renew it:
    however many of them run and however time passes in between, the status
    endpoint answers "likely down" until the marker's ten minutes are over
    and "down" from then on. *)
Theorem marker_runs_out_after_ten_minutes nodeID s s' (e : N) :
  redis s !! getNodeKey nodeID = Some (likelyDown, e) ->
  unreachable_run nodeID s s' ->
  forall w,
    ((clock s' < e)%N -> redis_up w = true ->
       getNodeStatus w nodeID s'
         = Some (mkResponse StatusOK (Some (BodyStatus "likely down")), s'))
    /\ ((e <= clock s')%N ->
       getNodeStatus w nodeID s'
         = Some (mkResponse StatusOK (Some (BodyStatus "down")), s')).
Proof.
  intros Hk Hrun w.
  destruct (unreachable_run_marker _ _ _ _ Hk Hrun) as [Hm | [Hn Hle]].
  - split.
    + intros Hlt Hup. apply getNodeStatus_likely_down; [done|].
      unfold redis_GET. rewrite Hm. by rewrite bool_decide_eq_true_2.
    + intros Hge. apply getNodeStatus_down.
      unfold redis_GET. rewrite Hm. by rewrite bool_decide_eq_false_2 by lia.
  - split.
    + intros Hlt. lia.
    + intros _. apply getNodeStatus_down. unfold redis_GET. by rewrite Hn.
Qed.

(** *** Where the errors of the read path come from *)

(** Only the Directory's empty answer makes the fetch pipeline fail with
    [ErrNodeNotFound]; then nothing but the twin query was sent. *)
Lemma fetchNodeData_not_found_inv w nodeID s e s1 :
  fetchNodeData w nodeID s = Some (Err e, s1) ->
  errors_Is e ErrNodeNotFound = true ->
  cache_lookup s nodeID = None
  /\ explorer_twin w nodeID = Reply []
  /\ s1 = recorded (QueryTwin nodeID) s.
Proof.
  rewrite fetchNodeData_eq, getNodeTwinID_eq. intros H Hnf.
  repeat (first [ progress cbv zeta in H
                | rewrite getNodeHypervisor_eq in H
                | rewrite getNodeDMI_eq in H
                | case_match ]; simplify_eq); done.
Qed.

Lemma probeCalls_recorded_twin nodeID s :
  probeCalls (recorded (QueryTwin nodeID) s) = probeCalls s.
Proof. reflexivity. Qed.

Lemma probeCalls_set_redis f s : probeCalls (set_redis f s) = probeCalls s.
Proof. reflexivity. Qed.

(** X3.  The snapshot endpoint answers 404 only when the identity cache
    held no fresh twin id, the Directory was asked and listed no node of
    that id; and then no request was sent to the node. *)
Theorem getNode_404_only_from_directory w nodeID s resp s' :
  getNode w nodeID s = Some (resp, s') ->
  StatusCode resp = StatusNotFound ->
  cache_lookup s nodeID = None
  /\ explorer_twin w nodeID = Reply []
  /\ probeCalls s' = probeCalls s.
Proof.
  unfold getNode. unfold bind. rewrite getNodeData_eq.
  destruct (GetRedisKey_total w (getNodeKey nodeID) s) as [[value e0] ->]. simpl.
  rewrite andb_true_r. destruct (nonempty value) eqn:Hv.
  { monad_unfold. by intros [= <- <-]. }
  destruct (fetchNodeData w nodeID s) as [[fetched sf]|] eqn:Hf; [|done].
  unfold afterFetch, Serialize, DeleteRedisKey, SetRedisKey. rewrite Hv.
  destruct fetched as [n|e].
  - monad_unfold. intros H Hcode. repeat (case_match; simpl in *; simplify_eq); done.
  - destruct (errors_Is e ErrNodeNotFound) eqn:Hnf.
    + destruct (fetchNodeData_not_found_inv _ _ _ _ _ Hf Hnf) as (Hc & Hd & ->).
      monad_unfold. intros H _. split; [done|]. split; [done|].
      repeat (case_match; simpl in *; simplify_eq); done.
    + monad_unfold. intros H Hcode. repeat (case_match; simpl in *; simplify_eq); done.
Qed.

(** X4.  The snapshot endpoint answers with one of four outcomes: 200 with
    a non-empty cached or fresh payload, 404, 502, or 500; and 500 only when
    [json.Marshal] of the fetched snapshot fails. *)
Theorem getNode_outcomes w nodeID s resp s' :
  getNode w nodeID s = Some (resp, s') ->
  (exists data, data <> "" /\ resp = mkResponse StatusOK (Some (BodyRaw data)))
  \/ resp = writeError StatusNotFound
  \/ resp = writeError StatusBadGateway
  \/ (resp = writeError StatusInternalServerError
      /\ exists (n : NodeInfo) msg, json_Marshal n = Failure msg).
Proof.
  unfold getNode. unfold bind. rewrite getNodeData_eq.
  destruct (GetRedisKey_total w (getNodeKey nodeID) s) as [[value e0] ->]. simpl.
  rewrite andb_true_r. destruct (nonempty value) eqn:Hv.
  { monad_unfold. intros [= <- <-]. left. exists value. split; [|done].
    intros ->. by rewrite nonempty_empty in Hv. }
  destruct (fetchNodeData w nodeID s) as [[fetched sf]|] eqn:Hf; [|done].
  unfold afterFetch, Serialize, DeleteRedisKey, SetRedisKey. rewrite Hv.
  destruct fetched as [n|e].
  - destruct (json_Marshal n) as [bytes|msg] eqn:Hm.
    + monad_unfold. intros H. left. exists bytes.
      split; [by eapply json_Marshal_nonempty|].
      repeat (case_match; simpl in *; simplify_eq); done.
    + monad_unfold. intros [= <- <-]. right; right; right. split; [done|]. eauto.
  - destruct (errors_Is e ErrNodeNotFound) eqn:Hnf.
    + monad_unfold. intros H. right; left. repeat (case_match; simpl in *; simplify_eq); done.
    + monad_unfold. intros H. right; right; left.
      repeat (case_match; simpl in *; simplify_eq); done.
Qed.

(** X5.  While the identity cache holds a fresh twin id for a node, no call
    of [getNodeData] asks the Directory or fails with [ErrNodeNotFound],
    whatever the Directory would answer: a node that has left the Directory
    is still treated as a known one. *)
Theorem cached_twin_hides_directory w nodeID force s twin r s' :
  cache_lookup s nodeID = Some (VUint32 twin) ->
  getNodeData w nodeID force s = Some (r, s') ->
  twinQueries s' = twinQueries s
  /\ forall e, r.2 = Some e -> errors_Is e ErrNodeNotFound = false.
Proof.
  intros Hc. rewrite getNodeData_eq.
  destruct (GetRedisKey_total w (getNodeKey nodeID) s) as [[value e0] ->]. simpl.
  destruct (nonempty value && negb force).
  { intros [= <- <-]. split; [done|]. by intros e [=]. }
  destruct (fetchNodeData w nodeID s) as [[fetched sf]|] eqn:Hf; [|done].
  assert (twinQueries sf = twinQueries s
          /\ forall e, fetched = Err e -> errors_Is e ErrNodeNotFound = false) as [Hq Hnf].
  { revert Hf. rewrite fetchNodeData_eq, getNodeTwinID_eq, Hc. intros Hf.
    repeat (first [ progress cbv zeta in Hf
                  | rewrite getNodeHypervisor_eq in Hf
                  | rewrite getNodeDMI_eq in Hf
                  | case_match ]; simplify_eq);
      (split; [reflexivity | intros e' [= <-]; reflexivity || done]). }
  unfold afterFetch, checkLikelyDown, Serialize, Deserialize, DeleteRedisKey, SetRedisKey.
  destruct fetched as [n|e].
  - monad_unfold. intros H.
    repeat (case_match; simpl in *; simplify_eq);
      (split; [exact Hq | intros e' He'; simpl in He'; simplify_eq; reflexivity]).
  - rewrite (Hnf e eq_refl). monad_unfold. intros H.
    repeat (case_match; simpl in *; simplify_eq);
      (split; [exact Hq | intros e' He'; simpl in He'; simplify_eq; reflexivity]).
Qed.

(** *** The requests of one fetch *)

(** X6.  One run of [fetchNodeData] sends at most one twin query to the
    Directory and at most four requests to the node; a run that succeeds
    has asked the node at least for its counters and its version, which are
    never taken from a cache; and a run whose twin resolution fails sends
    nothing to the node. *)
Theorem fetchNodeData_requests w nodeID s r s1 :
  fetchNodeData w nodeID s = Some (r, s1) ->
  twinQueries s1 <= twinQueries s + 1
  /\ probeCalls s <= probeCalls s1 <= probeCalls s + 4
  /\ (forall n, r = Ok n -> probeCalls s + 2 <= probeCalls s1)
  /\ (forall e s0, getNodeTwinID w nodeID s = Some (Err e, s0) ->
        probeCalls s1 = probeCalls s).
Proof.
  intros H.
  assert (forall e s0, getNodeTwinID w nodeID s = Some (Err e, s0) ->
            probeCalls s1 = probeCalls s) as Htwin.
  { intros e s0 Ht. rewrite fetchNodeData_eq, Ht in H. simplify_eq.
    revert Ht. rewrite getNodeTwinID_eq. intros Ht.
    repeat (case_match; simplify_eq);
      unfold probeCalls, recorded; simpl; rewrite ?filter_cons; simpl;
      repeat case_decide; simpl; done. }
  split; [|split; [|split; [|exact Htwin]]];
    clear Htwin; revert H; rewrite fetchNodeData_eq, getNodeTwinID_eq; intros H;
    repeat (first [ progress cbv zeta in H
                  | rewrite getNodeHypervisor_eq in H
                  | rewrite getNodeDMI_eq in H
                  | case_match ]; simplify_eq);
    try (intros n' Hn'; simplify_eq);
    unfold probeCalls, twinQueries, set_lruCache, recorded; simpl;
    rewrite ?filter_cons; simpl; repeat case_decide; simpl; try done; lia.
Qed.

(** *** The objects of the identity cache *)

Lemma lastChar_app (a b : string) :
  b <> "" -> lastChar (a +:+ b) = lastChar b.
Proof.
  intros Hb. induction a as [|ch a IH]; [done|].
  change (String ch a +:+ b) with (String ch (a +:+ b)). simpl. rewrite IH.
  destruct b; [done|]. simpl. by destruct (lastChar b).
Qed.

Lemma app_nonempty (a b : string) : b <> "" -> a +:+ b <> "".
Proof.
  intros Hb H. apply (f_equal String.length) in H.
  rewrite string_length_app in H. destruct b; [done|]. simpl in H. lia.
Qed.

Lemma hypervisorKey_dmiKey_apart (a b : string) : hypervisorKey a <> dmiKey b.
Proof.
  unfold hypervisorKey, dmiKey. intros H. apply (f_equal lastChar) in H.
  rewrite !lastChar_app in H by (try apply app_nonempty; done). done.
Qed.

Lemma numericID_not_hypervisorKey k nodeID :
  numericID k = true -> k <> hypervisorKey nodeID.
Proof. intros Hk ->. unfold numericID, hypervisorKey in Hk. cbn in Hk. done. Qed.

Lemma numericID_not_dmiKey k nodeID :
  numericID k = true -> k <> dmiKey nodeID.
Proof. intros Hk ->. unfold numericID, dmiKey in Hk. cbn in Hk. done. Qed.

Lemma hypervisorKey_not_numeric nodeID : numericID (hypervisorKey nodeID) = false.
Proof. reflexivity. Qed.

Lemma dmiKey_not_numeric nodeID : numericID (dmiKey nodeID) = false.
Proof. reflexivity. Qed.

Lemma cache_lookup_Some s k v :
  cache_lookup s k = Some v ->
  exists it, lruCache s !! k = Some it /\ Object it = v.
Proof.
  unfold cache_lookup. destruct (lruCache s !! k) as [it|]; [|done].
  destruct (item_expired (clock s) it); [done|]. intros [= <-]. eauto.
Qed.

Lemma lru_typed_twin s nodeID v :
  lru_typed s -> numericID nodeID = true ->
  cache_lookup s nodeID = Some v -> exists twin, v = VUint32 twin.
Proof.
  intros Ht Hn Hc. apply cache_lookup_Some in Hc as (it & Hk & <-).
  specialize (Ht _ _ Hk). destruct (Object it) as [t|h|d]; [by eauto| |].
  - destruct Ht as [[x ->] _]. by rewrite hypervisorKey_not_numeric in Hn.
  - destruct Ht as [[x ->] _]. by rewrite dmiKey_not_numeric in Hn.
Qed.

Lemma lru_typed_hypervisor s nodeID v :
  lru_typed s ->
  cache_lookup s (hypervisorKey nodeID) = Some v -> exists h, v = VString h.
Proof.
  intros Ht Hc. apply cache_lookup_Some in Hc as (it & Hk & <-).
  specialize (Ht _ _ Hk). destruct (Object it) as [t|h|d]; [|by eauto|].
  - by rewrite hypervisorKey_not_numeric in Ht.
  - destruct Ht as [[x Hx] _]. by apply hypervisorKey_dmiKey_apart in Hx.
Qed.

Lemma lru_typed_dmi s nodeID v :
  lru_typed s ->
  cache_lookup s (dmiKey nodeID) = Some v -> exists d, v = VDMI d.
Proof.
  intros Ht Hc. apply cache_lookup_Some in Hc as (it & Hk & <-).
  specialize (Ht _ _ Hk). destruct (Object it) as [t|h|d]; [| |by eauto].
  - by rewrite dmiKey_not_numeric in Ht.
  - destruct Ht as [[x Hx] _]. symmetry in Hx. by apply hypervisorKey_dmiKey_apart in Hx.
Qed.

Lemma lru_typed_eq s s' : lruCache s' = lruCache s -> lru_typed s -> lru_typed s'.
Proof. intros Hl Ht k it. rewrite Hl. apply Ht. Qed.

Lemma lru_typed_insert s k (it : Item dmi_DMI) :
  match Object it with
  | VUint32 _ => numericID k = true
  | VString _ => (exists nodeID, k = hypervisorKey nodeID) /\ Expiration it = 0%N
  | VDMI _ => (exists nodeID, k = dmiKey nodeID) /\ Expiration it = 0%N
  end ->
  lru_typed s -> lru_typed (set_lruCache (fun m => <[k := it]> m) s).
Proof.
  intros Hit Ht k' it'. unfold set_lruCache. simpl. rewrite lookup_insert.
  case_decide; [by intros [= <-]; subst | apply Ht].
Qed.

Lemma lru_typed_init : lru_typed (@initState dmi_DMI).
Proof. intros k it. unfold initState. simpl. by rewrite lookup_empty. Qed.

Lemma lru_typed_sleep d s : lru_typed s -> lru_typed (sleep d s).
Proof. intros Ht k it Hk. apply sleep_lru_lookup in Hk. by apply Ht. Qed.

Lemma getNodeTwinID_typed w nodeID s :
  lru_typed s -> numericID nodeID = true ->
  exists r s', getNodeTwinID w nodeID s = Some (r, s') /\ lru_typed s'.
Proof.
  intros Ht Hn. rewrite getNodeTwinID_eq.
  destruct (cache_lookup s nodeID) as [v|] eqn:Hc.
  - destruct (lru_typed_twin _ _ _ Ht Hn Hc) as [t ->]. eauto.
  - destruct (explorer_twin w nodeID) as [[|t rest]|msg]; eexists _, _; (split; [done|]).
    + by eapply lru_typed_eq.
    + apply lru_typed_insert; [done|]. by eapply lru_typed_eq.
    + by eapply lru_typed_eq.
Qed.

Lemma getNodeHypervisor_typed w nodeID twin s :
  lru_typed s ->
  exists r s', getNodeHypervisor w nodeID twin s = Some (r, s') /\ lru_typed s'.
Proof.
  intros Ht. rewrite getNodeHypervisor_eq.
  destruct (cache_lookup s (hypervisorKey nodeID)) as [v|] eqn:Hc.
  - destruct (lru_typed_hypervisor _ _ _ Ht Hc) as [h ->]. eauto.
  - destruct (rmb_SystemHypervisor w twin) as [h|msg]; eexists _, _; (split; [done|]).
    + apply lru_typed_insert; [simpl; eauto|]. by eapply lru_typed_eq.
    + by eapply lru_typed_eq.
Qed.

Lemma getNodeDMI_typed w nodeID twin s :
  lru_typed s ->
  exists r s', getNodeDMI w nodeID twin s = Some (r, s') /\ lru_typed s'.
Proof.
  intros Ht. rewrite getNodeDMI_eq.
  destruct (cache_lookup s (dmiKey nodeID)) as [v|] eqn:Hc.
  - destruct (lru_typed_dmi _ _ _ Ht Hc) as [d ->]. eauto.
  - destruct (rmb_SystemDMI w twin) as [d|msg]; eexists _, _; (split; [done|]).
    + apply lru_typed_insert; [simpl; eauto|]. by eapply lru_typed_eq.
    + by eapply lru_typed_eq.
Qed.

Lemma fetchNodeData_typed w nodeID s :
  lru_typed s -> numericID nodeID = true ->
  exists r s', fetchNodeData w nodeID s = Some (r, s') /\ lru_typed s'.
Proof.
  intros Ht Hn. rewrite fetchNodeData_eq.
  destruct (getNodeTwinID_typed w nodeID s Ht Hn) as ([t|e] & sa & -> & Hta); [|by eauto].
  destruct (rmb_Counters w t) as [[total used]|msg];
    [|eexists _, _; split; [done | by eapply lru_typed_eq]].
  cbv zeta.
  destruct (rmb_SystemVersion w t) as [version|msg];
    [|eexists _, _; split; [done | by eapply lru_typed_eq]].
  destruct (getNodeHypervisor_typed w nodeID t
              (recorded (SystemVersion t) (recorded (Counters t) sa)))
    as ([h|e] & sc & -> & Htc); [by eapply lru_typed_eq | | by eauto].
  destruct (getNodeDMI_typed w nodeID t sc Htc) as ([d|e] & sd & -> & Htd); by eauto.
Qed.

Lemma afterFetch_caches w nodeID value fetched sf :
  exists r s', afterFetch w nodeID value fetched sf = Some (r, s')
               /\ lruCache s' = lruCache sf /\ clock s' = clock sf /\ calls s' = calls sf.
Proof.
  unfold afterFetch, checkLikelyDown, Serialize, Deserialize, DeleteRedisKey, SetRedisKey.
  monad_unfold. repeat (case_match; simpl in *; simplify_eq); by eexists _, _.
Qed.

Lemma getNodeData_typed w nodeID force s :
  lru_typed s ->
  numericID nodeID = true ->
  exists r s', getNodeData w nodeID force s = Some (r, s') /\ lru_typed s'.
Proof.
  intros Ht Hn. rewrite getNodeData_eq.
  destruct (GetRedisKey_total w (getNodeKey nodeID) s) as [[value e0] ->]. simpl.
  destruct (nonempty value && negb force).
  { by eexists _, _. }
  destruct (fetchNodeData_typed w nodeID s Ht Hn) as (fetched & sf & -> & Htf).
  destruct (afterFetch_caches w nodeID value fetched sf) as (r & s' & -> & Hl & _).
  exists r, s'. split; [done|]. by eapply lru_typed_eq.
Qed.

(** X7.  With the identity cache well typed, as it is after [Setup], a call
    of [getNodeData] for a numeric node id never panics on a type
    assertion: it returns, and it leaves the identity cache well typed,
    also as time passes. *)
Theorem numeric_ids_never_panic w nodeID force s :
  lru_typed s ->
  numericID nodeID = true ->
  exists r s',
    getNodeData w nodeID force s = Some (r, s')
    /\ forall d, lru_typed (sleep d s').
Proof.
  intros Ht Hn.
  destruct (getNodeData_typed w nodeID force s Ht Hn) as (r & s' & Hrun & Hts).
  exists r, s'. split; [done|]. intros d. by apply lru_typed_sleep.
Qed.

(** *** The hardware facts *)

Lemma tick_keeps_forever s k (it : Item dmi_DMI) :
  lruCache s !! k = Some it -> Expiration it = 0%N -> lruCache (tick s) !! k = Some it.
Proof.
  intros Hk He. unfold tick. case_bool_decide; simpl; [|done].
  apply map_lookup_filter_Some. split; [done|]. simpl.
  unfold item_expired. rewrite He. done.
Qed.

Lemma sleep_keeps_forever d s k (it : Item dmi_DMI) :
  lruCache s !! k = Some it -> Expiration it = 0%N -> lruCache (sleep d s) !! k = Some it.
Proof.
  revert s. induction d as [|d IH]; intros s Hk He; simpl; [done|].
  apply IH; [|done]. by apply tick_keeps_forever.
Qed.

Lemma cache_lookup_forever s k (it : Item dmi_DMI) :
  lruCache s !! k = Some it -> Expiration it = 0%N -> cache_lookup s k = Some (Object it).
Proof. intros Hk He. unfold cache_lookup, item_expired. rewrite Hk, He. done. Qed.

Lemma getNodeHypervisor_Ok w nodeID twin s h s1 :
  getNodeHypervisor w nodeID twin s = Some (Ok h, s1) ->
  cache_lookup s1 (hypervisorKey nodeID) = Some (VString h).
Proof.
  rewrite getNodeHypervisor_eq. intros H.
  repeat (case_match; simplify_eq); [done|].
  by rewrite cache_lookup_set_eq.
Qed.

Lemma getNodeDMI_Ok w nodeID twin s d s1 :
  getNodeDMI w nodeID twin s = Some (Ok d, s1) ->
  cache_lookup s1 (dmiKey nodeID) = Some (VDMI d).
Proof.
  rewrite getNodeDMI_eq. intros H.
  repeat (case_match; simplify_eq); [done|].
  by rewrite cache_lookup_set_eq.
Qed.

(** After a fetch that succeeded, the hypervisor name and the inventory of
    the snapshot are what the identity cache holds. *)
Lemma fetchNodeData_Ok_hardware w nodeID s n s1 :
  fetchNodeData w nodeID s = Some (Ok n, s1) ->
  cache_lookup s1 (hypervisorKey nodeID) = Some (VString (Hypervisor n))
  /\ cache_lookup s1 (dmiKey nodeID) = Some (VDMI (DMI n)).
Proof.
  rewrite fetchNodeData_eq. intros H.
  destruct (getNodeTwinID w nodeID s) as [[[t|e] sa]|]; [| |done]; [|done].
  destruct (rmb_Counters w t) as [[total used]|msg]; [|done]. cbv zeta in H.
  destruct (rmb_SystemVersion w t) as [version|msg]; [|done].
  destruct (getNodeHypervisor w nodeID t _) as [[[h|e] sc]|] eqn:H2; [| |done]; [|done].
  destruct (getNodeDMI w nodeID t sc) as [[[d|e] sd]|] eqn:H3; [| |done]; [|done].
  simplify_eq. simpl. split.
  - rewrite (getNodeDMI_frame _ _ _ _ _ _ _ H3 (hypervisorKey_dmiKey_ne nodeID)).
    by eapply getNodeHypervisor_Ok.
  - by eapply getNodeDMI_Ok.
Qed.

Lemma hardwareCalls_eq s s' : calls s' = calls s -> hardwareCalls s' = hardwareCalls s.
Proof. intros H. unfold hardwareCalls. by rewrite H. Qed.

(** X8.  Once a fetch has succeeded for a node (numeric id, identity cache
    well typed), its hypervisor name and hardware inventory are never asked
    for again: whatever time has passed and whatever the node would answer
    now, a later fetch sends no hypervisor or inventory request, and a
    snapshot it returns carries the hypervisor name and inventory of the
    first one. *)
Theorem hardware_facts_fetched_once w nodeID s n s1 :
  lru_typed s ->
  numericID nodeID = true ->
  fetchNodeData w nodeID s = Some (Ok n, s1) ->
  forall (d : nat) w' r s2,
    fetchNodeData w' nodeID (sleep d s1) = Some (r, s2) ->
    hardwareCalls s2 = hardwareCalls s1
    /\ forall n', r = Ok n' -> Hypervisor n' = Hypervisor n /\ DMI n' = DMI n.
Proof.
  intros Ht Hn Hfetch d w' r s2.
  assert (lru_typed s1) as Ht1.
  { destruct (fetchNodeData_typed w nodeID s Ht Hn) as (r0 & s0 & H0 & Ht0).
    rewrite Hfetch in H0. by simplify_eq. }
  destruct (fetchNodeData_Ok_hardware _ _ _ _ _ Hfetch) as [Hh Hd].
  assert (forall k v, cache_lookup s1 k = Some v ->
            match v with VUint32 _ => False | _ => True end ->
            cache_lookup (sleep d s1) k = Some v) as Hkeep.
  { intros k v Hc Hv. apply cache_lookup_Some in Hc as (it & Hk & <-).
    pose proof (Ht1 _ _ Hk) as Hit.
    assert (Expiration it = 0%N) as He by (destruct (Object it); [done | apply Hit..]).
    apply cache_lookup_forever; [|done]. by apply sleep_keeps_forever. }
  pose proof (Hkeep _ _ Hh I) as Hh'. pose proof (Hkeep _ _ Hd I) as Hd'.
  clear Hkeep. set (s' := sleep d s1) in *.
  assert (hardwareCalls s' = hardwareCalls s1) as Hcalls.
  { apply hardwareCalls_eq. apply sleep_calls. }
  rewrite <- Hcalls. clear Hcalls.
  rewrite fetchNodeData_eq.
  destruct (getNodeTwinID w' nodeID s') as [[[t|e] sa]|] eqn:H1; [| |done].
  2: { intros [= <- <-]. split; [|done].
       revert H1. rewrite getNodeTwinID_eq. intros H1.
       repeat (case_match; simplify_eq); reflexivity. }
  assert (hardwareCalls sa = hardwareCalls s'
          /\ cache_lookup sa (hypervisorKey nodeID) = Some (VString (Hypervisor n))
          /\ cache_lookup sa (dmiKey nodeID) = Some (VDMI (DMI n))) as (Hca & Hha & Hda).
  { split.
    - revert H1. rewrite getNodeTwinID_eq. intros H1.
      repeat (case_match; simplify_eq); reflexivity.
    - split.
      + rewrite (getNodeTwinID_frame _ _ _ _ _ _ H1); [done|].
        intros Heq. symmetry in Heq. by apply hypervisorKey_ne in Heq.
      + rewrite (getNodeTwinID_frame _ _ _ _ _ _ H1); [done|].
        intros Heq. symmetry in Heq. by apply dmiKey_ne in Heq. }
  destruct (rmb_Counters w' t) as [[total used]|msg].
  2: { intros [= <- <-]. split; [|done]. rewrite <- Hca. reflexivity. }
  cbv zeta.
  destruct (rmb_SystemVersion w' t) as [version|msg].
  2: { intros [= <- <-]. split; [|done]. rewrite <- Hca. reflexivity. }
  rewrite getNodeHypervisor_eq, !cache_lookup_recorded, Hha.
  rewrite getNodeDMI_eq, !cache_lookup_recorded, Hda.
  intros [= <- <-]. split; [rewrite <- Hca; reflexivity|].
  by intros n' [= <-].
Qed.

(** *** [listNodes] *)

Lemma GetRedisKey_cases w key s :
  (GetRedisKey w key s = Some (("", Some ErrNil), s) /\ redis_up w = true
     /\ redis_GET s key = None)
  \/ (GetRedisKey w key s = Some (("", Some redis_conn_error), s) /\ redis_up w = false)
  \/ (exists value, GetRedisKey w key s = Some ((value, None), s) /\ redis_up w = true
        /\ redis_GET s key = Some value).
Proof.
  destruct (redis_up w) eqn:Hup.
  - destruct (redis_GET s key) as [value|] eqn:Hget.
    + right; right. exists value. by rewrite (GetRedisKey_hit _ _ _ _ Hup Hget).
    + left. by rewrite (GetRedisKey_miss _ _ _ Hup Hget).
  - right; left. by rewrite (GetRedisKey_down _ _ _ Hup).
Qed.

Lemma storedUp_true value : value <> "" -> value <> likelyDown -> storedUp value = true.
Proof.
  intros Hne Hnm. unfold storedUp. rewrite (nonempty_true _ Hne).
  by rewrite (proj2 (String.eqb_neq _ _) Hnm).
Qed.

(** X9.  [listNodes] and the status endpoint classify a node alike: a node
    that [listNodes] lists carries the status that [getNodeStatus] answers
    for it in the same state (the key not holding the empty string). *)
Theorem listNodes_status_agrees_with_getNodeStatus w nd s nd' s' :
  redis_GET s (getNodeKey (pretty (NodeID nd))) <> Some "" ->
  listNodes_body w nd s = Some (Some nd', s') ->
  getNodeStatus w (pretty (NodeID nd)) s
    = Some (mkResponse StatusOK (Some (BodyStatus (Status nd'))), s).
Proof.
  intros Hne. unfold listNodes_body, getNodeStatus. unfold bind at 1 3.
  destruct (GetRedisKey_cases w (getNodeKey (pretty (NodeID nd))) s)
    as [(-> & _ & _) | [(-> & _) | (value & -> & Hup & Hget)]]; simpl.
  - intros [= <- <-]. done.
  - intros [= <- <-]. done.
  - assert (value <> "") as Hv by (intros ->; by rewrite Hget in Hne).
    destruct (String.eqb value likelyDown) eqn:Hm; simpl.
    + apply String.eqb_eq in Hm as ->. simpl. intros [= <- <-]. done.
    + rewrite (storedUp_true value Hv) by (by apply String.eqb_neq). simpl.
      unfold bind.
      destruct (getNodeCapacity w (pretty (NodeID nd)) false s) as [[[cap|e] s1]|]; [| |done].
      * intros [= <- <-]. done.
      * done.
Qed.

Lemma listNodes_body_listed w nd s nd' s' :
  listNodes_body w nd s = Some (Some nd', s') -> listed nd nd'.
Proof.
  unfold listNodes_body. unfold bind at 1.
  destruct (GetRedisKey_total w (getNodeKey (pretty (NodeID nd))) s) as [[value e0] ->]. simpl.
  match goal with |- context [if ?b then _ else _] => destruct b end.
  - unfold bind.
    match goal with |- context [getNodeCapacity ?a ?b ?c ?d] =>
      destruct (getNodeCapacity a b c d) as [[[cap|e] s1]|]; [| |done] end.
    + intros [= <- <-]. unfold listed. simpl.
      repeat (case_match; simpl); done.
    + done.
  - intros [= <- <-]. unfold listed. simpl. repeat (case_match; simpl); done.
Qed.

Lemma listNodes_loop_listed w nodes nodeList s l s' :
  listNodes_loop w nodes nodeList s = Some (l, s') ->
  exists picked kept,
    l = (nodeList ++ kept)%list /\ sublist picked nodes /\ Forall2 listed picked kept.
Proof.
  revert nodeList s. induction nodes as [|nd rest IH]; intros nodeList s; simpl.
  - intros [= <- <-]. exists [], []. rewrite app_nil_r. by repeat constructor.
  - unfold bind. destruct (listNodes_body w nd s) as [[[nd'|] s0]|] eqn:Hb; [| |done].
    + intros Hl. destruct (IH _ _ Hl) as (picked & kept & -> & Hsub & Hall).
      exists (nd :: picked), (nd' :: kept).
      split; [by rewrite <- app_assoc|].
      split; [by constructor|]. constructor; [|done]. by eapply listNodes_body_listed.
    + intros Hl. destruct (IH _ _ Hl) as (picked & kept & -> & Hsub & Hall).
      exists picked, kept. split; [done|]. split; [by constructor | done].
Qed.

(** X10.  What [listNodes] answers is 500 when the Directory query fails
    and otherwise 200 with nodes of the Directory page, in the order of the
    page, none twice and none made up: each listed node has the identity
    fields of its page node and its location filled from country and
    city. *)
Theorem listNodes_lists_nodes_of_the_page w maxR off farm gw s resp s' :
  listNodes w maxR off farm gw s = Some (resp, s') ->
  match explorer_nodes w maxR off farm gw with
  | Failure _ => resp = writeError StatusInternalServerError
  | Reply nodes =>
      exists picked kept,
        resp = mkResponse StatusOK (Some (BodyNodes kept))
        /\ sublist picked nodes /\ Forall2 listed picked kept
  end.
Proof.
  unfold listNodes, getAllNodes. monad_unfold.
  destruct (explorer_nodes w maxR off farm gw) as [nodes|msg].
  - match goal with |- context [listNodes_loop w nodes [] ?st] =>
      destruct (listNodes_loop w nodes [] st) as [[l s1]|] eqn:Hl; [|done] end.
    intros [= <- <-].
    destruct (listNodes_loop_listed _ _ _ _ _ _ Hl) as (picked & kept & -> & Hsub & Hall).
    by exists picked, kept.
  - by intros [= <- <-].
Qed.



Lemma reachable_no_empty_value s key : reachable s -> redis_GET s key <> Some "".
Proof.
  intros Hreach Hget. apply reachable_store_inv in Hreach.
  unfold redis_GET in Hget.
  destruct (redis s !! key) as [[value expiry]|] eqn:Hk; [|done].
  case_bool_decide; [|done]. simplify_eq.
  destruct (Hreach _ _ _ Hk) as [Hm | [n Hn]]; [done|].
  by apply json_Marshal_nonempty in Hn.
Qed.


(** X12.  In every state the server reaches, a live entry under a node's
    key is what the non-forced [getNodeData] returns, with no error and no
    change of state, Redis being reachable: the server never stores a value
    that its own cache test would take for absent. *)
Theorem reachable_live_entry_served w nodeID s value :
  reachable s ->
  redis_up w = true ->
  redis_GET s (getNodeKey nodeID) = Some value ->
  getNodeData w nodeID false s = Some ((value, None), s).
Proof.
  intros Hreach Hup Hget. apply getNodeData_cached; [done | done |].
  intros ->. by apply (reachable_no_empty_value s (getNodeKey nodeID)).
Qed.

(** *** One key per node *)

Lemma getNodeKey_inj nodeID nodeID' :
  getNodeKey nodeID = getNodeKey nodeID' -> nodeID = nodeID'.
Proof. unfold getNodeKey. apply String.app_inj. Qed.

Lemma afterFetch_other_keys w nodeID value fetched sf r s' key :
  afterFetch w nodeID value fetched sf = Some (r, s') ->
  key <> getNodeKey nodeID ->
  redis s' !! key = redis sf !! key.
Proof.
  unfold afterFetch, checkLikelyDown, Serialize, Deserialize, DeleteRedisKey, SetRedisKey.
  monad_unfold. intros H Hne.
  repeat (case_match; simpl in *; simplify_eq); simpl;
    rewrite ?lookup_insert_ne, ?lookup_delete_ne by done; done.
Qed.

(** X13.  A call of [getNodeData] for one node leaves the Redis entries of
    all other nodes as they are, and distinct Directory ids have distinct
    keys: no operation spans the state of two nodes. *)
Theorem getNodeData_touches_one_key w (nid other : Z) force s r s' :
  getNodeData w (pretty nid) force s = Some (r, s') ->
  other <> nid ->
  getNodeKey (pretty other) <> getNodeKey (pretty nid)
  /\ redis s' !! getNodeKey (pretty other) = redis s !! getNodeKey (pretty other).
Proof.
  intros H Hne.
  assert (getNodeKey (pretty other) <> getNodeKey (pretty nid)) as Hk.
  { intros Heq. apply getNodeKey_inj in Heq. by apply (inj pretty) in Heq. }
  split; [done|]. revert H. rewrite getNodeData_eq.
  destruct (GetRedisKey_total w (getNodeKey (pretty nid)) s) as [[value e0] ->]. simpl.
  destruct (nonempty value && negb force); [by intros [= <- <-]|].
  destruct (fetchNodeData w (pretty nid) s) as [[fetched sf]|] eqn:Hf; [|done].
  destruct (fetchNodeData_store _ _ _ _ _ Hf) as [Hr _].
  intros H. rewrite (afterFetch_other_keys _ _ _ _ _ _ _ _ H Hk). by rewrite Hr.
Qed.

(** *** Printed node ids *)

Lemma isDigit_pretty_N_char (x : N) : isDigit (pretty_N_char x) = true.
Proof. unfold pretty_N_char. by repeat case_match. Qed.

Lemma pretty_N_go_digits (x : N) (acc : string) :
  allDigits acc = true -> allDigits (pretty_N_go x acc) = true.
Proof.
  revert acc. induction (N.lt_wf_0 x) as [x _ IH]; intros acc Hacc.
  destruct (decide (x = 0)%N) as [->|Hx]; [by rewrite pretty_N_go_0|].
  rewrite pretty_N_go_step by lia. apply IH.
  - apply N.div_lt; lia.
  - simpl. by rewrite isDigit_pretty_N_char, Hacc.
Qed.

Lemma pretty_N_go_nonempty (x : N) (acc : string) :
  acc <> "" -> pretty_N_go x acc <> "".
Proof.
  revert acc. induction (N.lt_wf_0 x) as [x _ IH]; intros acc Hacc.
  destruct (decide (x = 0)%N) as [->|Hx]; [by rewrite pretty_N_go_0|].
  rewrite pretty_N_go_step by lia. apply IH; [apply N.div_lt; lia | done].
Qed.

(** [fmt.Sprint] of a non-negative [int] is a numeric id. *)
Lemma numericID_pretty (z : Z) : (0 <= z)%Z -> numericID (pretty z) = true.
Proof.
  intros Hz. destruct z as [|p|p]; [done| |lia].
  unfold pretty, pretty_Z, pretty, pretty_positive, pretty, pretty_N.
  rewrite decide_False by done.
  unfold numericID. rewrite pretty_N_go_step by lia.
  apply andb_true_intro. split.
  - apply nonempty_true. by apply pretty_N_go_nonempty.
  - apply pretty_N_go_digits. simpl. by rewrite isDigit_pretty_N_char.
Qed.

(** *** The Fleet Refresher runs to its end *)

Lemma sum_list_insert (f : Z * workerPC -> nat) l i x y :
  l !! i = Some x ->
  sum_list (f <$> <[i := y]> l) + f x = sum_list (f <$> l) + f y.
Proof.
  revert i. induction l as [|a l IH]; intros [|i] Hi; simplify_eq/=; [lia|].
  specialize (IH i Hi). lia.
Qed.

Lemma sum_list_delete (f : Z * workerPC -> nat) l i x :
  l !! i = Some x ->
  sum_list (f <$> delete i l) + f x = sum_list (f <$> l).
Proof.
  revert i. induction l as [|a l IH]; intros [|i] Hi; simplify_eq/=; [lia|].
  specialize (IH i Hi). lia.
Qed.

Lemma sum_list_snoc (f : Z * workerPC -> nat) l x :
  sum_list (f <$> (l ++ [x])%list) = sum_list (f <$> l) + f x.
Proof. rewrite fmap_app, sum_list_with_app || rewrite fmap_app. induction l; simpl; lia. Qed.

Lemma cycle_step_measure w ch c c' :
  cycle_inv c ->
  cycle_step w ch c = Some c' ->
  S (cycle_measure c') = cycle_measure c.
Proof.
  unfold cycle_inv, cycle_step, cycle_measure. intros [Hlen Hcap] Hstep.
  destruct ch as [|i].
  - destruct (main c) as [[|nid rest]|nid rest|] eqn:Hm; simplify_eq; simpl.
    + lia.
    + case_decide; simplify_eq; simpl. lia.
    + rewrite sum_list_snoc. change (worker_steps (nid, Fetching)) with 2. lia.
  - destruct (workers c !! i) as [[nid pc]|] eqn:Hw; [|done].
    destruct pc.
    + destruct (getNodeData w (pretty nid) true (app c)) as [[r a']|]; simplify_eq; simpl.
      pose proof (sum_list_insert worker_steps _ _ _ (nid, Releasing) Hw) as Hs.
      change (worker_steps (nid, Fetching)) with 2 in Hs.
      change (worker_steps (nid, Releasing)) with 1 in Hs. lia.
    + pose proof (sum_list_delete worker_steps _ _ _ Hw) as Hs.
      change (worker_steps (nid, Releasing)) with 1 in Hs.
      assert (i < length (workers c)) by (by eapply lookup_lt_Some).
      case_decide; [|lia]. simplify_eq. simpl. lia.
Qed.

Lemma cycle_run_measure schedule c c' :
  cycle_inv c ->
  cycle_run schedule c = Some c' ->
  length schedule + cycle_measure c' = cycle_measure c.
Proof.
  revert c. induction schedule as [|[w ch] rest IH]; intros c Hinv; simpl.
  - by intros [= <-].
  - destruct (cycle_step w ch c) as [c1|] eqn:Hs; [|done]. intros Hrun.
    pose proof (cycle_step_measure _ _ _ _ Hinv Hs).
    pose proof (cycle_step_cycle_inv _ _ _ _ Hinv Hs) as Hinv1.
    specialize (IH _ Hinv1 Hrun). lia.
Qed.

Lemma cycle_measure_done c :
  cycle_measure c = 0 <-> main c = Returned /\ workers c = [].
Proof.
  unfold cycle_measure. split.
  - intros H. destruct (main c); [lia | lia |]. split; [done|].
    destruct (workers c) as [|[nid pc] l]; [done|].
    simpl in H. unfold worker_steps in H. simpl in H. destruct pc; lia.
  - intros [-> ->]. done.
Qed.

(** X14.  A cycle of [cacheNodesInfo] over [n] node ids cannot run for more
    than [4 n + 1] steps, whatever the schedule; it has made exactly that
    many when the main goroutine has returned and every worker is gone, and
    then the buffer of the semaphore is empty. *)
Theorem refresher_cycle_is_bounded w s c s0 ids schedule c' :
  cacheNodesInfo w s = Some (Some c, s0) ->
  explorer_nodeIds w = Reply ids ->
  cycle_run schedule c = Some c' ->
  length schedule <= 4 * length ids + 1
  /\ (length schedule = 4 * length ids + 1 <-> main c' = Returned /\ workers c' = [])
  /\ (main c' = Returned -> workers c' = [] -> channelLimit c' = 0).
Proof.
  intros Hstart Hids Hrun.
  pose proof (cacheNodesInfo_cycle_inv _ _ _ _ Hstart) as Hinv.
  pose proof (cycle_run_measure _ _ _ Hinv Hrun) as Hm.
  pose proof (cycle_run_cycle_inv _ _ _ Hinv Hrun) as [Hlen _].
  assert (cycle_measure c = 4 * length ids + 1) as Hc.
  { revert Hstart. unfold cacheNodesInfo, getAllNodesIDs. monad_unfold. rewrite Hids.
    intros [= <- <-]. unfold cycle_measure. simpl. lia. }
  pose proof (cycle_measure_done c') as Hdone.
  split; [lia|]. split.
  - split; [intros Hl; apply Hdone; lia | intros Hd; apply Hdone in Hd; lia].
  - intros Hr Hw. rewrite Hr, Hw in Hlen. simpl in Hlen. lia.
Qed.

Lemma cycle_step_typed w ch c c' :
  lru_typed (app c) -> cycle_ids_ok c ->
  cycle_step w ch c = Some c' ->
  lru_typed (app c') /\ cycle_ids_ok c'.
Proof.
  unfold cycle_step, cycle_ids_ok. intros Ht [Hmain Hwk] Hstep.
  destruct ch as [|i].
  - destruct (main c) as [[|nid rest]|nid rest|] eqn:Hm; simplify_eq; simpl.
    + done.
    + case_decide; simplify_eq; simpl. rewrite Forall_cons in Hmain. done.
    + destruct Hmain as [Hn Hrest]. split; [done|]. split; [done|].
      apply Forall_app. split; [done|]. by constructor.
  - destruct (workers c !! i) as [[nid pc]|] eqn:Hw; [|done].
    assert (0 <= nid)%Z as Hnid.
    { rewrite Forall_lookup in Hwk. apply (Hwk _ _ Hw). }
    destruct pc.
    + destruct (getNodeData_typed w (pretty nid) true (app c) Ht
                  (numericID_pretty _ Hnid)) as (r & a' & Hg & Hta).
      rewrite Hg in Hstep. simplify_eq. simpl.
      split; [exact Hta|]. split; [done|].
      apply Forall_insert; done.
    + assert (Forall (fun wk => (0 <= wk.1)%Z) (delete i (workers c))) as Hdel.
      { by apply Forall_delete. }
      case_decide; [|destruct (closed c)]; simplify_eq; simpl; (split; [done | split; done]).
Qed.

(** Unless the cycle is over, some goroutine can take a step. *)
Lemma cycle_progress w c :
  cycle_inv c -> lru_typed (app c) -> cycle_ids_ok c ->
  cycle_measure c <> 0 ->
  exists ch c', cycle_step w ch c = Some c'.
Proof.
  intros [Hlen Hcap] Ht [Hmain Hwk] Hm.
  assert (forall i nid pc, workers c !! i = Some (nid, pc) -> 0 < channelLimit c ->
            exists c', cycle_step w (RunWorker i) c = Some c') as Hworker.
  { intros i nid pc Hw Hpos. unfold cycle_step. rewrite Hw.
    assert (0 <= nid)%Z as Hnid.
    { rewrite Forall_lookup in Hwk. apply (Hwk _ _ Hw). }
    destruct pc.
    - destruct (getNodeData_typed w (pretty nid) true (app c) Ht
                  (numericID_pretty _ Hnid)) as (r & a' & -> & _). eauto.
    - rewrite decide_True by done. eauto. }
  destruct (main c) as [[|nid rest]|nid rest|] eqn:Hmc.
  - exists RunMain. unfold cycle_step. rewrite Hmc. eauto.
  - destruct (decide (channelLimit c < maxGoRoutnes)) as [Hlt|Hge].
    + exists RunMain. unfold cycle_step. rewrite Hmc. rewrite decide_True by done. eauto.
    + destruct (workers c) as [|[nid0 pc0] l] eqn:Hws.
      * simpl in Hlen. unfold maxGoRoutnes in Hge. lia.
      * destruct (Hworker 0 nid0 pc0) as [c' Hc']; [done | simpl in Hlen; lia|].
        eauto.
  - exists RunMain. unfold cycle_step. rewrite Hmc. eauto.
  - destruct (workers c) as [|[nid0 pc0] l] eqn:Hws.
    + exfalso. apply Hm. apply cycle_measure_done. by rewrite Hws.
    + destruct (Hworker 0 nid0 pc0) as [c' Hc']; [done | simpl in Hlen; lia|].
      eauto.
Qed.

Lemma cycle_completes_from w (m : nat) c :
  cycle_measure c = m ->
  cycle_inv c -> lru_typed (app c) -> cycle_ids_ok c ->
  exists schedule c',
    cycle_run schedule c = Some c' /\ main c' = Returned /\ workers c' = [].
Proof.
  revert c. induction m as [|m IH]; intros c Hm Hinv Ht Hok.
  - exists [], c. split; [done|]. by apply cycle_measure_done.
  - destruct (cycle_progress w c Hinv Ht Hok ltac:(lia)) as (ch & c1 & Hstep).
    pose proof (cycle_step_measure _ _ _ _ Hinv Hstep) as Hm1.
    pose proof (cycle_step_cycle_inv _ _ _ _ Hinv Hstep) as Hinv1.
    destruct (cycle_step_typed _ _ _ _ Ht Hok Hstep) as [Ht1 Hok1].
    destruct (IH c1 ltac:(lia) Hinv1 Ht1 Hok1) as (schedule & c' & Hrun & Hdone).
    exists ((w, ch) :: schedule), c'. simpl. rewrite Hstep. done.
Qed.

Lemma cycle_run_typed schedule c c' :
  lru_typed (app c) -> cycle_ids_ok c ->
  cycle_run schedule c = Some c' ->
  lru_typed (app c') /\ cycle_ids_ok c'.
Proof.
  revert c. induction schedule as [|[w ch] rest IH]; intros c Ht Hok; simpl.
  - by intros [= <-].
  - destruct (cycle_step w ch c) as [c1|] eqn:Hs; [|done].
    destruct (cycle_step_typed _ _ _ _ Ht Hok Hs) as [Ht1 Hok1]. by apply IH.
Qed.

(** X15.  A cycle of [cacheNodesInfo] cannot get stuck: when the node ids
    the Directory lists are non-negative and the identity cache is well
    typed, then from every state the cycle reaches, under whatever schedule
    and environments, it can be run on to the point where the main
    goroutine has returned and every worker has given its token back. *)
Theorem refresher_cycle_completes w s c s0 prefix c1 :
  lru_typed s ->
  cacheNodesInfo w s = Some (Some c, s0) ->
  Forall (fun nid => 0 <= nid)%Z (match explorer_nodeIds w with Reply ids => ids | _ => [] end) ->
  cycle_run prefix c = Some c1 ->
  exists rest c',
    cycle_run rest c1 = Some c' /\ main c' = Returned /\ workers c' = [].
Proof.
  intros Ht Hstart Hids Hrun.
  pose proof (cacheNodesInfo_cycle_inv _ _ _ _ Hstart) as Hinv.
  assert (lru_typed (app c) /\ cycle_ids_ok c) as [Htc Hok].
  { revert Hstart. unfold cacheNodesInfo, getAllNodesIDs. monad_unfold.
    destruct (explorer_nodeIds w) as [ids|msg]; [|done]. intros [= <- <-].
    split; [by eapply lru_typed_eq|]. split; simpl; [done | constructor]. }
  pose proof (cycle_run_cycle_inv _ _ _ Hinv Hrun) as Hinv1.
  destruct (cycle_run_typed _ _ _ Htc Hok Hrun) as [Ht1 Hok1].
  by eapply (cycle_completes_from w).
Qed.

(** *** Query parameters *)

Lemma digit_of_pretty_N_char (d : N) :
  (d < 10)%N -> (Z.of_nat (nat_of_ascii (pretty_N_char d)) - 48)%Z = Z.of_N d.
Proof.
  intros Hd.
  assert (d = 0 \/ d = 1 \/ d = 2 \/ d = 3 \/ d = 4 \/ d = 5 \/ d = 6 \/ d = 7
          \/ d = 8 \/ d = 9)%N as Hcases by lia.
  repeat (destruct Hcases as [-> | Hcases]; [reflexivity|]). by subst.
Qed.

(** Reading the digits that [pretty] wrote in front of [rest]. *)
Lemma digitsValue_pretty_N_go (x : N) (rest : string) :
  exists k : Z, (0 <= k)%Z /\ forall acc,
    digitsValue (pretty_N_go x rest) acc = digitsValue rest (acc * 10 ^ k + Z.of_N x).
Proof.
  revert rest. induction (N.lt_wf_0 x) as [x _ IH]; intros rest.
  destruct (decide (x = 0)%N) as [->|Hx].
  - exists 0%Z. split; [done|]. intros acc. rewrite pretty_N_go_0. f_equal. lia.
  - destruct (IH (x / 10)%N ltac:(apply N.div_lt; lia)
                (String (pretty_N_char (x mod 10)) rest)) as (k & Hk & IHk).
    exists (k + 1)%Z. split; [lia|]. intros acc.
    rewrite pretty_N_go_step by lia. rewrite IHk. simpl.
    rewrite isDigit_pretty_N_char.
    rewrite digit_of_pretty_N_char by (apply N.mod_lt; lia).
    f_equal. rewrite Z.pow_add_r by lia.
    pose proof (N.div_mod x 10 ltac:(lia)) as Hdm.
    assert (Z.of_N x = 10 * Z.of_N (x / 10) + Z.of_N (x mod 10))%Z as -> by lia.
    lia.
Qed.

Lemma isDigit_not_sign (a : ascii) :
  isDigit a = true -> Ascii.eqb a "-"%char = false /\ Ascii.eqb a "+"%char = false.
Proof.
  intros Ha. split.
  - destruct (Ascii.eqb_spec a "-"%char) as [->|]; [done | done].
  - destruct (Ascii.eqb_spec a "+"%char) as [->|]; [done | done].
Qed.

Lemma Atoi_pretty_pos (p : positive) :
  exists a rest,
    pretty (N.pos p) = String a rest /\ isDigit a = true
    /\ digitsValue (String a rest) 0 = Some (Z.pos p).
Proof.
  assert (numericID (pretty (Z.pos p)) = true) as Hnum by (by apply numericID_pretty).
  change (pretty (Z.pos p)) with (pretty (N.pos p)) in Hnum.
  destruct (digitsValue_pretty_N_go (N.pos p) "") as (k & Hk & Hv).
  assert (pretty (N.pos p) = pretty_N_go (N.pos p) "") as Hp.
  { unfold pretty at 1, pretty_N. by rewrite decide_False. }
  rewrite Hp in Hnum |- *.
  destruct (pretty_N_go (N.pos p) "") as [|a rest] eqn:Hgo; [done|].
  exists a, rest. split; [done|]. split.
  - unfold numericID in Hnum. simpl in Hnum. by destruct (isDigit a).
  - rewrite Hv. simpl. f_equal.
Qed.

(** [strconv.Atoi] reads back every [int] that [fmt.Sprint] prints. *)
Lemma Atoi_pretty (z : Z) :
  (minInt <= z <= maxInt)%Z -> Atoi (pretty z) = Ok z.
Proof.
  intros Hz. destruct z as [|p|p].
  - reflexivity.
  - change (pretty (Z.pos p)) with (pretty (N.pos p)).
    destruct (Atoi_pretty_pos p) as (a & rest & -> & Ha & Hv).
    unfold Atoi. destruct (isDigit_not_sign a Ha) as [-> ->]. simpl orb. cbv iota.
    rewrite Hv. by rewrite bool_decide_eq_true_2.
  - change (pretty (Z.neg p)) with ("-" +:+ pretty (N.pos p)).
    destruct (Atoi_pretty_pos p) as (a & rest & -> & Ha & Hv).
    change ("-" +:+ String a rest) with (String "-"%char (String a rest)).
    unfold Atoi. change (Ascii.eqb "-" "-")%char with true. simpl orb. cbv iota.
    rewrite Hv. by rewrite bool_decide_eq_true_2.
Qed.

Lemma pretty_nonempty (z : Z) : (1 <= z)%Z -> String.eqb (pretty z) "" = false.
Proof.
  intros Hz. pose proof (numericID_pretty z ltac:(lia)) as Hn.
  unfold numericID, nonempty in Hn. by destruct (String.eqb (pretty z) "").
Qed.

Lemma wrapInt_small (z : Z) : (minInt <= z <= maxInt)%Z -> wrapInt z = z.
Proof.
  unfold minInt, maxInt, wrapInt. intros Hz.
  rewrite Z.mod_small by lia. lia.
Qed.

(** X16.  Pagination: a request for page [p >= 1] with page size [m >= 0],
    both printed in decimal, yields the offset [(p - 1) * m] and the limit
    [m] (the product fitting an [int]), so that consecutive pages follow one
    another without gap or overlap; with [page] absent it is page 1, with
    [max_result] absent the size is 50. *)
Theorem pagination_offsets (r : Request) (p m : Z) :
  (1 <= p)%Z -> (0 <= m)%Z -> ((p - 1) * m <= maxInt)%Z -> (p <= maxInt)%Z -> (m <= maxInt)%Z ->
  Query r "page" = pretty p \/ (Query r "page" = "" /\ p = 1%Z) ->
  Query r "max_result" = pretty m \/ (Query r "max_result" = "" /\ m = 50%Z) ->
  exists params,
    handleRequestsQueryParams r = Ok params
    /\ maxResult params = m
    /\ offset params = ((p - 1) * m)%Z.
Proof.
  intros Hp Hm Hprod Hpmax Hmmax Hpage Hsize.
  assert (minInt <= p <= maxInt)%Z as Hpr by (unfold minInt; lia).
  assert (minInt <= m <= maxInt)%Z as Hmr by (unfold minInt; lia).
  assert (calculateMaxResult r = Ok m) as Hcm.
  { unfold calculateMaxResult. destruct Hsize as [-> | [-> ->]]; [|reflexivity].
    destruct (String.eqb (pretty m) "") eqn:He.
    - apply String.eqb_eq in He. pose proof (Atoi_pretty m Hmr) as Ha.
      rewrite He in Ha. done.
    - by rewrite (Atoi_pretty m Hmr). }
  assert (calculateOffset m r = Ok ((p - 1) * m)%Z) as Hco.
  { unfold calculateOffset.
    assert (Atoi (if String.eqb (Query r "page") "" then "1" else Query r "page") = Ok p)
      as ->.
    { destruct Hpage as [-> | [-> ->]]; [|reflexivity].
      rewrite (pretty_nonempty p Hp). by apply Atoi_pretty. }
    rewrite bool_decide_eq_false_2 by lia.
    rewrite wrapInt_small; [done|]. unfold minInt. nia. }
  unfold handleRequestsQueryParams. rewrite Hcm, Hco. eauto.
Qed.

Lemma Atoi_empty : exists e, Atoi "" = Err e.
Proof. by eexists. Qed.

Lemma listNodes_status w maxR off farm gw s resp s' :
  listNodes w maxR off farm gw s = Some (resp, s') ->
  StatusCode resp = StatusOK \/ StatusCode resp = StatusInternalServerError.
Proof.
  unfold listNodes, getAllNodes. monad_unfold.
  destruct (explorer_nodes w maxR off farm gw) as [nodes|msg].
  - match goal with |- context [listNodes_loop w nodes [] ?st] =>
      destruct (listNodes_loop w nodes [] st) as [[l s1]|]; [|done] end.
    intros [= <- <-]. by left.
  - intros [= <- <-]. by right.
Qed.

(** When [handleRequestsQueryParams] fails: a page size or a page that is
    no [int], or a page below 1. *)
Lemma handleRequestsQueryParams_Err (r : Request) :
  let maxText := if String.eqb (Query r "max_result") "" then "50" else Query r "max_result" in
  let pageText := if String.eqb (Query r "page") "" then "1" else Query r "page" in
  (exists e, handleRequestsQueryParams r = Err e)
  <-> (exists e, Atoi maxText = Err e)
      \/ (exists e, Atoi pageText = Err e)
      \/ (exists p, Atoi pageText = Ok p /\ (p < 1)%Z).
Proof.
  cbv zeta. unfold handleRequestsQueryParams, calculateMaxResult, calculateOffset.
  cbv zeta.
  destruct (Atoi (if String.eqb (Query r "max_result") "" then _ else _)) as [m|em].
  - destruct (Atoi (if String.eqb (Query r "page") "" then _ else _)) as [pg|ep].
    + case_bool_decide.
      * split; [|by eauto]. intros _. right. right. by exists pg.
      * split; [by intros [e He]|].
        intros [[e He] | [[e He] | (p' & Hp & Hlt)]]; [done | done |].
        simplify_eq. lia.
    + split; [|by eauto]. intros _. right. left. by eauto.
  - split; [|by eauto]. intros _. left. by eauto.
Qed.

(** X17.  [listNodes] as routed answers 400 exactly when the query
    parameters do not parse: [max_result] (50 when absent) or [page] (1 when
    absent) not an [int], or a page below 1; and then it has not asked the
    Directory or touched any state. *)
Theorem listNodesHandler_bad_request w (r : Request) s resp s' :
  listNodesHandler w r s = Some (resp, s') ->
  let maxText := if String.eqb (Query r "max_result") "" then "50" else Query r "max_result" in
  let pageText := if String.eqb (Query r "page") "" then "1" else Query r "page" in
  (StatusCode resp = StatusBadRequest
     <-> (exists e, Atoi maxText = Err e)
         \/ (exists e, Atoi pageText = Err e)
         \/ (exists p, Atoi pageText = Ok p /\ (p < 1)%Z))
  /\ (StatusCode resp = StatusBadRequest -> s' = s).
Proof.
  intros H maxText pageText. subst maxText pageText.
  rewrite <- (handleRequestsQueryParams_Err r).
  revert H. unfold listNodesHandler.
  destruct (handleRequestsQueryParams r) as [params|e] eqn:Hparams.
  - intros H.
    assert (StatusCode resp <> StatusBadRequest) as Hcode.
    { by destruct (listNodes_status _ _ _ _ _ _ _ _ H) as [-> | ->]. }
    split; [|done]. split; [done | by intros [e He]].
  - intros [= <- <-]. split; [|done]. split; [by eauto | done].
Qed.

(** *** [listFarms] *)

(** X18.  What [listFarms] sends.  Parameters that do not parse: 400 and
    the text of the status.  A Directory that answers: 200, the JSON content
    type and the marshalled farms.  A Directory query that fails: status
    500 with the text of the status, and then, since the handler does not
    return, the marshalling of the empty farm list appended to the body,
    the content type header coming too late to be sent.  The CORS header is
    sent in every case. *)
Theorem listFarms_outcomes {db_Farm : Type}
    (explorer_farms : Z -> Z -> reply (list db_Farm)) (r : Request) :
  let out := listFarms explorer_farms r newResponseWriter in
  ("Access-Control-Allow-Origin", "*") ∈ sentHeaders out
  /\ match handleRequestsQueryParams r with
     | Err _ =>
         sentStatus out = StatusBadRequest
         /\ rw_body out = [FarmsText "Bad Request"]
     | Ok params =>
         match explorer_farms (maxResult params) (offset params) with
         | Reply farms =>
             sentStatus out = StatusOK
             /\ rw_body out = [FarmsJSON farms]
             /\ ("Content-Type", "application/json") ∈ sentHeaders out
         | Failure _ =>
             sentStatus out = StatusInternalServerError
             /\ rw_body out = [FarmsText "Internal Server Error"; FarmsJSON []]
             /\ ("Content-Type", "application/json") ∉ sentHeaders out
         end
     end.
Proof.
  unfold listFarms.
  destruct (handleRequestsQueryParams r) as [params|e]; simpl.
  - destruct (explorer_farms (maxResult params) (offset params)) as [farms|msg]; simpl.
    + split; [by repeat constructor|]. split; [done|]. split; [done|].
      by repeat constructor.
    + split; [by repeat constructor|]. split; [done|]. split; [done|].
      cbv. intros Hin. apply elem_of_cons in Hin as [Hin | Hin]; [done|].
      by apply elem_of_nil in Hin.
  - split; [by repeat constructor | done].
Qed.

(** *** Results of [getNodeData] *)

(** X19.  [getNodeData] returns either a payload or an error, never both
    and never neither: with an error the string is empty, and without one
    it is not. *)
Theorem getNodeData_payload_xor_error w nodeID force s r s' :
  getNodeData w nodeID force s = Some (r, s') ->
  match r.2 with
  | Some _ => r.1 = ""
  | None => r.1 <> ""
  end.
Proof.
  rewrite getNodeData_eq.
  destruct (GetRedisKey_total w (getNodeKey nodeID) s) as [[value e0] ->]. simpl.
  destruct (nonempty value && negb force) eqn:Hc.
  { intros [= <- <-]. simpl. intros ->. by rewrite nonempty_empty in Hc. }
  destruct (fetchNodeData w nodeID s) as [[fetched sf]|]; [|done].
  unfold afterFetch, checkLikelyDown, Serialize, Deserialize, DeleteRedisKey, SetRedisKey.
  monad_unfold. intros H.
  repeat (case_match; simpl in *; simplify_eq); try done;
    by eapply json_Marshal_nonempty.
Qed.

(** *** The identity cache, with the constants of [Setup] *)

(** X20.  A twin id resolved from the Directory is answered from the
    identity cache, with no query, for the two minutes that [Setup] gives
    the cache as default expiration, whatever the Directory would answer by
    then; from the first second after that the Directory is asked again. *)
Theorem twin_id_cached_for_two_minutes w nodeID s twin rest :
  cache_lookup s nodeID = None ->
  explorer_twin w nodeID = Reply (twin :: rest) ->
  exists s1,
    getNodeTwinID w nodeID s = Some (Ok twin, s1)
    /\ (forall (d : nat) w', d <= 2 * 60 ->
          getNodeTwinID w' nodeID (sleep d s1) = Some (Ok twin, sleep d s1))
    /\ (forall (d : nat) w', 2 * 60 < d ->
          exists r s2, getNodeTwinID w' nodeID (sleep d s1) = Some (r, s2)
                       /\ calls s2 = QueryTwin nodeID :: calls (sleep d s1)).
Proof.
  intros Hc Hdir. eexists. split; [exact (getNodeTwinID_resolve _ _ _ _ _ Hc Hdir)|].
  split.
  - intros d w' Hd. rewrite getNodeTwinID_eq.
    by rewrite (proj1 (twin_entry_lifetime s nodeID twin d) Hd).
  - intros d w' Hd. apply getNodeTwinID_miss_queries.
    by apply (twin_entry_lifetime s nodeID twin d).
Qed.

(** *** [roundTotalMemory] *)

(** X21.  For a node with less than [2^53] bytes of memory,
    [roundTotalMemory] rounds the memory down to whole gigabytes and leaves
    the other resources as they are: the result is a multiple of
    [Gigabyte], at most the memory given and less than one gigabyte below
    it, and rounding it again changes nothing. *)
Theorem roundTotalMemory_rounds_down (cap : gridtypes_Capacity) :
  (MRU cap < 2 ^ 53)%N ->
  let rounded := roundTotalMemory cap in
  MRU rounded = (MRU cap / gridtypes_Gigabyte * gridtypes_Gigabyte)%N
  /\ (MRU rounded <= MRU cap < MRU rounded + gridtypes_Gigabyte)%N
  /\ CRU rounded = CRU cap /\ SRU rounded = SRU cap
  /\ HRU rounded = HRU cap /\ IPV4U rounded = IPV4U cap
  /\ roundTotalMemory rounded = rounded.
Proof.
  intros Hm.
  assert (forall x : N, (x < 2 ^ 53)%N ->
            Z.to_N (wrapUint64
              (float64_of_uint64 (Z.of_N x) / Z.of_N gridtypes_Gigabyte
               * Z.of_N gridtypes_Gigabyte))
            = (x / gridtypes_Gigabyte * gridtypes_Gigabyte)%N) as Hround.
  { intros x Hx. unfold float64_of_uint64, wrapUint64.
    assert (Z.of_N x < 2 ^ 53)%Z as Hz by lia.
    rewrite (proj2 (Z.ltb_lt _ _) Hz).
    change (Z.of_N gridtypes_Gigabyte) with (2 ^ 30)%Z.
    change gridtypes_Gigabyte with (2 ^ 30)%N.
    pose proof (Z.div_mod (Z.of_N x) (2 ^ 30) ltac:(lia)) as Hdm.
    pose proof (Z.mod_pos_bound (Z.of_N x) (2 ^ 30) ltac:(lia)) as Hb.
    assert (0 <= Z.of_N x / 2 ^ 30)%Z as Hq by (apply Z.div_pos; lia).
    rewrite Z.mod_small by lia.
    rewrite <- (N2Z.id (x / 2 ^ 30 * 2 ^ 30)). f_equal.
    rewrite N2Z.inj_mul, N2Z.inj_div. reflexivity. }
  pose proof (N.div_mod (MRU cap) gridtypes_Gigabyte ltac:(done)) as Hdm.
  pose proof (N.mod_lt (MRU cap) gridtypes_Gigabyte ltac:(done)) as Hlt.
  assert (MRU (roundTotalMemory cap)
          = (MRU cap / gridtypes_Gigabyte * gridtypes_Gigabyte)%N) as Hmru.
  { unfold roundTotalMemory. simpl. by apply Hround. }
  assert (MRU (roundTotalMemory cap) <= MRU cap
          < MRU (roundTotalMemory cap) + gridtypes_Gigabyte)%N as Hbound.
  { rewrite Hmru. revert Hdm Hlt. change gridtypes_Gigabyte with 1073741824%N.
    generalize (MRU cap / 1073741824)%N (MRU cap mod 1073741824)%N. intros q r ? ?. lia. }
  assert (MRU (roundTotalMemory cap) < 2 ^ 53)%N as Hsmall by lia.
  cbv zeta. split; [exact Hmru|]. split; [exact Hbound|].
  do 4 (split; [reflexivity|]).
  transitivity (mkCapacity (CRU cap) (SRU cap) (HRU cap)
                  (MRU cap / gridtypes_Gigabyte * gridtypes_Gigabyte)%N (IPV4U cap)).
  - unfold roundTotalMemory at 1. rewrite (Hround _ Hsmall), Hmru.
    rewrite N.div_mul by done. reflexivity.
  - unfold roundTotalMemory. rewrite (Hround _ Hm). reflexivity.
Qed.

End Further.

(** ** The further properties at concrete inputs *)

(** Memory close to the top of [uint64] rounds up to [2^64] as a double and
    wraps to zero in the product. *)
Example roundTotalMemory_wraps :
  MRU (roundTotalMemory (mkCapacity 0 0 0 (2 ^ 64 - 1) 0)) = 0%N.
Proof. vm_compute. reflexivity. Qed.

(** A node id that is the hypervisor key of another node finds that node's
    hypervisor name where a twin id is expected, and the type assertion
    panics; the router's pattern keeps such ids out. *)
Example non_numeric_id_panics :
  getNodeData worldUp "node_42_hypervisor" true exRefreshed = None.
Proof. vm_compute. reflexivity. Qed.

Lemma fetched_snapshot_served_for_thirty_minutes_witness :
  exists s2,
    getNodeData worldUp "42" true exMarked = Some ((exValue, None), s2)
    /\ (forall w' (d : nat), redis_up w' = true -> d < 30 * 60 ->
         getNodeStatus w' "42" (sleep d s2)
           = Some (mkResponse StatusOK (Some (BodyStatus "up")), sleep d s2)
         /\ getNode w' "42" (sleep d s2)
           = Some (mkResponse StatusOK (Some (BodyRaw exValue)), sleep d s2))
    /\ (forall w' (d : nat), 30 * 60 <= d ->
         getNodeStatus w' "42" (sleep d s2)
           = Some (mkResponse StatusOK (Some (BodyStatus "down")), sleep d s2)).
Proof.
  eapply (fetched_snapshot_served_for_thirty_minutes worldUp "42" true exMarked exSnapshot).
  - reflexivity.
  - left. reflexivity.
  - vm_compute. reflexivity.
  - vm_compute. reflexivity.
  - discriminate.
Defined.

Lemma marker_runs_out_after_ten_minutes_witness :
  ((clock (sleep 600 exMarkedRetried) < 600)%N -> redis_up worldUp = true ->
     getNodeStatus worldUp "42" (sleep 600 exMarkedRetried)
       = Some (mkResponse StatusOK (Some (BodyStatus "likely down")),
               sleep 600 exMarkedRetried))
  /\ ((600 <= clock (sleep 600 exMarkedRetried))%N ->
     getNodeStatus worldUp "42" (sleep 600 exMarkedRetried)
       = Some (mkResponse StatusOK (Some (BodyStatus "down")),
               sleep 600 exMarkedRetried)).
Proof.
  refine (marker_runs_out_after_ten_minutes "42" exMarked (sleep 600 exMarkedRetried) 600%N
            _ _ worldUp).
  - vm_compute. reflexivity.
  - apply ur_sleep.
    eapply (ur_fetch "42" worldDown exMarked exMarked exTimeout exMarkedRetried _
              exMarkedRetried).
    + apply ur_start.
    + reflexivity.
    + vm_compute. reflexivity.
    + reflexivity.
    + vm_compute. reflexivity.
Defined.

Lemma getNode_404_only_from_directory_witness :
  cache_lookup (@initState unit) "42" = None
  /\ explorer_twin worldGone "42" = Reply []
  /\ probeCalls (set_redis (fun m => delete (getNodeKey "42") m)
                   (recorded (QueryTwin "42") (@initState unit)))
     = probeCalls (@initState unit).
Proof.
  apply (getNode_404_only_from_directory worldGone "42" initState
           (writeError StatusNotFound)).
  - vm_compute. reflexivity.
  - reflexivity.
Defined.

Lemma getNode_outcomes_witness :
  (exists data, data <> "" /\ writeError StatusBadGateway
                              = mkResponse StatusOK (Some (BodyRaw data)))
  \/ writeError StatusBadGateway = writeError StatusNotFound
  \/ writeError StatusBadGateway = writeError StatusBadGateway
  \/ (writeError StatusBadGateway = writeError StatusInternalServerError
      /\ exists (n : NodeInfo unit) msg, json_Marshal n = Failure msg).
Proof.
  eapply (getNode_outcomes worldDown "42" initState (writeError StatusBadGateway)).
  vm_compute. reflexivity.
Defined.

Lemma cached_twin_hides_directory_witness :
  exists r s',
    getNodeData worldGone "42" true exRefreshed = Some (r, s')
    /\ twinQueries s' = twinQueries exRefreshed
    /\ forall e, r.2 = Some e -> errors_Is e ErrNodeNotFound = false.
Proof.
  eexists _, _. split; [vm_compute; reflexivity|].
  eapply (cached_twin_hides_directory worldGone "42" true exRefreshed 7%N).
  - vm_compute. reflexivity.
  - vm_compute. reflexivity.
Defined.

Lemma fetchNodeData_requests_witness :
  exists r s1,
    fetchNodeData worldUp "42" initState = Some (r, s1)
    /\ twinQueries s1 <= twinQueries (@initState unit) + 1
    /\ probeCalls (@initState unit) <= probeCalls s1 <= probeCalls (@initState unit) + 4
    /\ (forall n, r = Ok n -> probeCalls (@initState unit) + 2 <= probeCalls s1)
    /\ (forall e s0, getNodeTwinID worldUp "42" initState = Some (Err e, s0) ->
          probeCalls s1 = probeCalls (@initState unit)).
Proof.
  eexists _, _. split; [vm_compute; reflexivity|].
  eapply (fetchNodeData_requests worldUp "42" initState).
  vm_compute. reflexivity.
Defined.

Lemma numeric_ids_never_panic_witness :
  exists r s',
    getNodeData worldUp "42" true initState = Some (r, s')
    /\ forall d, lru_typed (sleep d s').
Proof.
  apply (numeric_ids_never_panic worldUp "42" true initState).
  - apply lru_typed_init.
  - reflexivity.
Defined.

Lemma hardware_facts_fetched_once_witness :
  exists s1,
    fetchNodeData worldUp "42" initState = Some (Ok exSnapshot, s1)
    /\ forall (d : nat) w' r s2,
         fetchNodeData w' "42" (sleep d s1) = Some (r, s2) ->
         hardwareCalls s2 = hardwareCalls s1
         /\ forall n', r = Ok n' -> Hypervisor n' = Hypervisor exSnapshot
                                    /\ DMI n' = DMI exSnapshot.
Proof.
  eexists. split; [vm_compute; reflexivity|].
  eapply (hardware_facts_fetched_once worldUp "42" initState exSnapshot).
  - apply lru_typed_init.
  - reflexivity.
  - vm_compute. reflexivity.
Defined.

Lemma listNodes_status_agrees_with_getNodeStatus_witness :
  getNodeStatus worldDown (pretty (NodeID exNode)) exMarked
  = Some (mkResponse StatusOK
            (Some (BodyStatus
               (Status (mkNode 42 1 7 "BE" "Ghent" zeroCapacity zeroCapacity
                               (mkLocation "BE" "Ghent") "likely down")))), exMarked).
Proof.
  apply (listNodes_status_agrees_with_getNodeStatus worldDown exNode exMarked
           (mkNode 42 1 7 "BE" "Ghent" zeroCapacity zeroCapacity
                   (mkLocation "BE" "Ghent") "likely down") exMarked).
  - vm_compute. discriminate.
  - vm_compute. reflexivity.
Defined.

Lemma listNodes_lists_nodes_of_the_page_witness :
  exists picked kept,
    mkResponse StatusOK
      (Some (BodyNodes [mkNode 42 1 7 "BE" "Ghent" zeroCapacity zeroCapacity
                               (mkLocation "BE" "Ghent") "likely down"]))
    = mkResponse StatusOK (Some (BodyNodes kept))
    /\ sublist picked [exNode] /\ Forall2 listed picked kept.
Proof.
  apply (listNodes_lists_nodes_of_the_page worldDown 50 0 "" "" exMarked
           (mkResponse StatusOK
              (Some (BodyNodes [mkNode 42 1 7 "BE" "Ghent" zeroCapacity zeroCapacity
                                       (mkLocation "BE" "Ghent") "likely down"])))
           (recorded QueryNodes exMarked)).
  vm_compute. reflexivity.
Defined.


Lemma reachable_live_entry_served_witness :
  getNodeData worldDown "42" false exRefreshed = Some ((exValue, None), exRefreshed).
Proof.
  apply (reachable_live_entry_served worldDown "42" exRefreshed exValue).
  - apply (reach_getNodeData worldUp "42" true initState (exValue, None) exRefreshed).
    + apply reach_init.
    + vm_compute. reflexivity.
  - reflexivity.
  - vm_compute. reflexivity.
Defined.

Lemma getNodeData_touches_one_key_witness :
  exists s',
    getNodeData worldGone (pretty 43%Z) true exCached = Some (("", Some ErrNodeNotFound), s')
    /\ getNodeKey (pretty 42%Z) <> getNodeKey (pretty 43%Z)
    /\ redis s' !! getNodeKey (pretty 42%Z) = redis exCached !! getNodeKey (pretty 42%Z).
Proof.
  eexists. split; [vm_compute; reflexivity|].
  eapply (getNodeData_touches_one_key worldGone 43 42 true exCached).
  - vm_compute. reflexivity.
  - discriminate.
Defined.

Lemma refresher_cycle_is_bounded_witness :
  exists c',
    cycle_run exSchedule exCycle = Some c'
    /\ length exSchedule <= 4 * length [42%Z; 43%Z; 44%Z] + 1
    /\ (length exSchedule = 4 * length [42%Z; 43%Z; 44%Z] + 1
        <-> main c' = Returned /\ workers c' = [])
    /\ (main c' = Returned -> workers c' = [] -> channelLimit c' = 0).
Proof.
  eexists. split; [vm_compute; reflexivity|].
  eapply (refresher_cycle_is_bounded worldUp initState exCycle
            (recorded QueryNodeIds initState) [42%Z; 43%Z; 44%Z] exSchedule).
  - vm_compute. reflexivity.
  - reflexivity.
  - vm_compute. reflexivity.
Defined.

Lemma refresher_cycle_completes_witness :
  exists c1,
    cycle_run exSchedule exCycle = Some c1
    /\ exists rest c',
         cycle_run rest c1 = Some c' /\ main c' = Returned /\ workers c' = [].
Proof.
  eexists. split; [vm_compute; reflexivity|].
  eapply (refresher_cycle_completes worldUp initState exCycle
            (recorded QueryNodeIds initState) exSchedule).
  - apply lru_typed_init.
  - vm_compute. reflexivity.
  - simpl. repeat constructor; lia.
  - vm_compute. reflexivity.
Defined.

Lemma pagination_offsets_witness :
  exists params,
    handleRequestsQueryParams exRequest = Ok params
    /\ maxResult params = 20%Z
    /\ offset params = ((3 - 1) * 20)%Z.
Proof.
  apply (pagination_offsets exRequest 3 20).
  - lia.
  - lia.
  - unfold maxInt. lia.
  - unfold maxInt. lia.
  - unfold maxInt. lia.
  - left. vm_compute. reflexivity.
  - left. vm_compute. reflexivity.
Defined.

Lemma listNodesHandler_bad_request_witness :
  let maxText := if String.eqb (Query exBadRequest "max_result") ""
                 then "50" else Query exBadRequest "max_result" in
  let pageText := if String.eqb (Query exBadRequest "page") ""
                  then "1" else Query exBadRequest "page" in
  (StatusCode (mkResponse StatusBadRequest (Some (BodyText "Bad Request"))) = StatusBadRequest
     <-> (exists e, Atoi maxText = Err e)
         \/ (exists e, Atoi pageText = Err e)
         \/ (exists p, Atoi pageText = Ok p /\ (p < 1)%Z))
  /\ (StatusCode (mkResponse StatusBadRequest (Some (BodyText "Bad Request")))
      = StatusBadRequest -> exCached = exCached).
Proof.
  apply (listNodesHandler_bad_request worldUp exBadRequest exCached
           (mkResponse StatusBadRequest (Some (BodyText "Bad Request"))) exCached).
  vm_compute. reflexivity.
Defined.

Lemma getNodeData_payload_xor_error_witness :
  exists r s',
    getNodeData worldDown "42" false initState = Some (r, s')
    /\ match r.2 with
       | Some _ => r.1 = ""
       | None => r.1 <> ""
       end.
Proof.
  eexists _, _. split; [vm_compute; reflexivity|].
  eapply (getNodeData_payload_xor_error worldDown "42" false initState).
  vm_compute. reflexivity.
Defined.

Lemma twin_id_cached_for_two_minutes_witness :
  exists s1,
    getNodeTwinID worldUp "42" initState = Some (Ok 7%N, s1)
    /\ (forall (d : nat) w', d <= 2 * 60 ->
          getNodeTwinID w' "42" (sleep d s1) = Some (Ok 7%N, sleep d s1))
    /\ (forall (d : nat) w', 2 * 60 < d ->
          exists r s2, getNodeTwinID w' "42" (sleep d s1) = Some (r, s2)
                       /\ calls s2 = QueryTwin "42" :: calls (sleep d s1)).
Proof.
  apply (twin_id_cached_for_two_minutes worldUp "42" initState 7%N []).
  - vm_compute. reflexivity.
  - reflexivity.
Defined.

Lemma roundTotalMemory_rounds_down_witness :
  let rounded := roundTotalMemory exCapacity in
  MRU rounded = (MRU exCapacity / gridtypes_Gigabyte * gridtypes_Gigabyte)%N
  /\ (MRU rounded <= MRU exCapacity < MRU rounded + gridtypes_Gigabyte)%N
  /\ CRU rounded = CRU exCapacity /\ SRU rounded = SRU exCapacity
  /\ HRU rounded = HRU exCapacity /\ IPV4U rounded = IPV4U exCapacity
  /\ roundTotalMemory rounded = rounded.
Proof.
  apply (roundTotalMemory_rounds_down exCapacity).
  vm_compute. reflexivity.
Defined.
